(** * hcloud-go: the client transport core ([hcloud/client.go])

    A shallow embedding of the request and response plumbing of the
    Hetzner Cloud client: backoff policies, the pagination driver,
    response meta parsing, error classification and request construction.

    Go strings and byte slices are finite byte sequences; both are
    represented by [string] (a list of 8-bit [ascii]).  [int], [int64] and
    [time.Duration] are 64-bit two's complement integers, represented by
    [Z] with the wrap-around written out. *)

From Stdlib Require Import ZArith QArith Lia Floats Ascii String.
From stdpp Require Import gmap strings list.

#[local] Set Warnings "-register-all".

Open Scope string_scope.
Open Scope Z_scope.

(** ** Go runtime: machine integers and float64 *)

Module Go.

Definition int64_min : Z := - 2 ^ 63.
Definition int64_max : Z := 2 ^ 63 - 1.

Definition in_int64 (n : Z) : Prop := int64_min <= n <= int64_max.

Definition in_int64b (n : Z) : bool := (int64_min <=? n) && (n <=? int64_max).

(** Wrap-around of a mathematical result into [int64]. *)
Definition wrap64 (n : Z) : Z := (n + 2 ^ 63) mod 2 ^ 64 - 2 ^ 63.

(** [float64(n)] for an integer [n]: round to nearest even. *)
Definition float64_of_int (n : Z) : float :=
  SF2Prim (binary_normalize prec emax n 0 false).

(** The fraction of a finite float is discarded (truncation towards
    zero); [None] for NaN and the infinities. *)
Definition float64_trunc (f : float) : option Z :=
  match Prim2SF f with
  | S754_zero _ => Some 0
  | S754_finite s m e =>
      let a := if 0 <=? e then Z.pos m * 2 ^ e else Z.pos m / 2 ^ (- e) in
      Some (if s then - a else a)
  | S754_infinity _ => None
  | S754_nan => None
  end.

(** The exact rational value of a finite float. *)
Definition float64_value (f : float) : option Q :=
  match Prim2SF f with
  | S754_zero _ => Some 0%Q
  | S754_finite s m e =>
      let a := (inject_Z (Z.pos m) * Qpower 2 e)%Q in
      Some (if s then Qopp a else a)
  | S754_infinity _ => None
  | S754_nan => None
  end.

(** The numeric value of a byte. *)
Definition code (c : ascii) : Z := Z.of_N (N_of_ascii c).

Definition byte_of (n : Z) : ascii := ascii_of_N (Z.to_N n).

Definition is_digit (c : ascii) : bool := (48 <=? code c) && (code c <=? 57).

Definition is_lower (c : ascii) : bool := (97 <=? code c) && (code c <=? 122).

Definition is_upper (c : ascii) : bool := (65 <=? code c) && (code c <=? 90).

Definition to_upper (c : ascii) : ascii :=
  if is_lower c then byte_of (code c - 32) else c.

Definition to_lower (c : ascii) : ascii :=
  if is_upper c then byte_of (code c + 32) else c.

End Go.

(** ** Package [strings] *)

Module strings.

(** [strings.HasPrefix(s, prefix)] *)
Definition HasPrefix (s prefix : string) : bool := String.prefix prefix s.

Fixpoint contains_byte (cutset : string) (c : ascii) : bool :=
  match cutset with
  | EmptyString => false
  | String x r => if Ascii.eqb x c then true else contains_byte r c
  end.

(** [strings.TrimRight(s, cutset)] for a cutset of ASCII bytes: the
    longest suffix of bytes of [cutset] is removed. *)
Fixpoint TrimRight (s cutset : string) : string :=
  match s with
  | EmptyString => EmptyString
  | String c r =>
      match TrimRight r cutset with
      | EmptyString =>
          if contains_byte cutset c then EmptyString else String c EmptyString
      | r' => String c r'
      end
  end.

End strings.

(** ** Package [strconv] *)

Module strconv.

Inductive NumError := ErrSyntax | ErrRange.

Definition maxUint64 : Z := 2 ^ 64 - 1.

(** The digit loop of [ParseUint(s, 10, 64)]: a byte that is no digit is
    a syntax error, an overflow stops the loop with the largest value. *)
Fixpoint ParseUint_loop (s : string) (n : Z) : Z * option NumError :=
  match s with
  | EmptyString => (n, None)
  | String c r =>
      if Go.is_digit c then
        let d := Go.code c - 48 in
        if maxUint64 / 10 + 1 <=? n then (maxUint64, Some ErrRange)
        else
          let n1 := n * 10 + d in
          if maxUint64 <? n1 then (maxUint64, Some ErrRange)
          else ParseUint_loop r n1
      else (0, Some ErrSyntax)
  end.

Definition ParseUint (s : string) : Z * option NumError :=
  match s with
  | EmptyString => (0, Some ErrSyntax)
  | _ => ParseUint_loop s 0
  end.

(** [strconv.ParseInt(s, 10, 64)]: on a range error the result is the
    integer of largest magnitude of the sign of [s]. *)
Definition ParseInt (s : string) : Z * option NumError :=
  match s with
  | EmptyString => (0, Some ErrSyntax)
  | String c r =>
      let neg := Ascii.eqb c "-" in
      let digits := if Ascii.eqb c "+" || neg then r else s in
      match ParseUint digits with
      | (_, Some ErrSyntax) => (0, Some ErrSyntax)
      | (un, _) =>
          let cutoff := 2 ^ 63 in
          if negb neg && (cutoff <=? un) then (cutoff - 1, Some ErrRange)
          else if neg && (cutoff <? un) then (- cutoff, Some ErrRange)
          else (if neg then - un else un, None)
      end
  end.

(** [strconv.Atoi(s)] is [ParseInt(s, 10, 0)] converted to [int]. *)
Definition Atoi (s : string) : Z * option NumError := ParseInt s.

(** The digits of [u], least significant first, put before [acc]
    ([formatBits] in base 10). *)
Fixpoint format_uint (fuel : nat) (u : Z) (acc : string) : string :=
  match fuel with
  | O => acc
  | S fuel' =>
      let acc' := String (Go.byte_of (48 + u mod 10)) acc in
      if u <? 10 then acc' else format_uint fuel' (u / 10) acc'
  end.

(** [strconv.Itoa(i)]: the decimal numeral of an [int]; twenty digits
    are enough for 64 bits. *)
Definition Itoa (i : Z) : string :=
  if i <? 0 then String "-" (format_uint 20 (- i) "")
  else format_uint 20 i "".

End strconv.

(** ** Package [encoding/json]

    [json.Unmarshal] first checks that the whole input is one JSON text
    and then stores the value into its target.  The first step is
    [parse], which also yields the value; the second step is written per
    target type from the combinators below.  The nesting of arrays and
    objects is not limited. *)

Module json.

Inductive value :=
| Null
| Bool (b : bool)
| Number (literal : string)
| Str (s : string)
| Array (elems : list value)
| Object (members : list (string * value)).

Inductive error := SyntaxError | UnmarshalTypeError.

Definition is_space (c : ascii) : bool :=
  let n := Go.code c in (n =? 32) || (n =? 9) || (n =? 13) || (n =? 10).

Fixpoint skip_space (s : string) : string :=
  match s with
  | String c r => if is_space c then skip_space r else s
  | EmptyString => s
  end.

Definition between (lo hi : Z) (c : ascii) : bool :=
  (lo <=? Go.code c) && (Go.code c <=? hi).

(** Length of the well-formed UTF-8 sequence at the head of [s]
    ([utf8.DecodeRune]); [0%nat] when there is none. *)
Definition utf8_len (s : string) : nat :=
  match s with
  | EmptyString => 0%nat
  | String b0 r =>
      let c0 := Go.code b0 in
      if c0 <? 128 then 1%nat
      else if (194 <=? c0) && (c0 <=? 223) then
        match r with
        | String b1 _ => if between 128 191 b1 then 2%nat else 0%nat
        | _ => 0%nat
        end
      else if (224 <=? c0) && (c0 <=? 239) then
        match r with
        | String b1 (String b2 _) =>
            let lo := if c0 =? 224 then 160 else 128 in
            let hi := if c0 =? 237 then 159 else 191 in
            if between lo hi b1 && between 128 191 b2 then 3%nat else 0%nat
        | _ => 0%nat
        end
      else if (240 <=? c0) && (c0 <=? 244) then
        match r with
        | String b1 (String b2 (String b3 _)) =>
            let lo := if c0 =? 240 then 144 else 128 in
            let hi := if c0 =? 244 then 143 else 191 in
            if between lo hi b1 && between 128 191 b2 && between 128 191 b3
            then 4%nat else 0%nat
        | _ => 0%nat
        end
      else 0%nat
  end.

(** [utf8.EncodeRune]; surrogates and values beyond U+10FFFF become
    U+FFFD. *)
Definition utf8_encode (r : Z) : string :=
  let b := Go.byte_of in
  if r <? 128 then String (b r) ""
  else if r <? 2048 then
    String (b (192 + r / 64)) (String (b (128 + r mod 64)) "")
  else if ((55296 <=? r) && (r <? 57344)) || (1114111 <? r) then
    String (b 239) (String (b 191) (String (b 189) ""))
  else if r <? 65536 then
    String (b (224 + r / 4096))
      (String (b (128 + (r / 64) mod 64)) (String (b (128 + r mod 64)) ""))
  else
    String (b (240 + r / 262144))
      (String (b (128 + (r / 4096) mod 64))
         (String (b (128 + (r / 64) mod 64)) (String (b (128 + r mod 64)) ""))).

Definition hex_digit (c : ascii) : option Z :=
  let n := Go.code c in
  if Go.is_digit c then Some (n - 48)
  else if (97 <=? n) && (n <=? 102) then Some (n - 87)
  else if (65 <=? n) && (n <=? 70) then Some (n - 55)
  else None.

Definition hex4 (a b c d : ascii) : option Z :=
  match hex_digit a, hex_digit b, hex_digit c, hex_digit d with
  | Some x, Some y, Some z, Some w => Some (((x * 16 + y) * 16 + z) * 16 + w)
  | _, _, _, _ => None
  end.

Definition prepend (pre : string) (res : option (string * string))
  : option (string * string) :=
  match res with
  | Some (s, rest) => Some (pre ++ s, rest)
  | None => None
  end.

Definition is_surrogate (r : Z) : bool := (55296 <=? r) && (r <? 57344).

(** [utf16.DecodeRune] of a surrogate pair, [None] when it is no pair. *)
Definition surrogate_pair (r1 r2 : Z) : option Z :=
  if (55296 <=? r1) && (r1 <? 56320) && (56320 <=? r2) && (r2 <? 57344)
  then Some ((r1 - 55296) * 1024 + (r2 - 56320) + 65536)
  else None.

(** A string literal after its opening quote: the unquoted bytes and the
    input after the closing quote.  [copy] counts the continuation bytes
    of a well-formed UTF-8 sequence that are still to be copied; a byte
    that starts no well-formed sequence is replaced by U+FFFD. *)
Fixpoint scan_string (s : string) (copy : nat) : option (string * string) :=
  match s with
  | EmptyString => None
  | String c r =>
      match copy with
      | S k => prepend (String c "") (scan_string r k)
      | O =>
          let n := Go.code c in
          if n =? 34 then Some ("", r)
          else if n =? 92 then
            match r with
            | String e r2 =>
                let m := Go.code e in
                if (m =? 34) || (m =? 92) || (m =? 47)
                then prepend (String e "") (scan_string r2 0)
                else if m =? 98 then prepend (String (Go.byte_of 8) "") (scan_string r2 0)
                else if m =? 102 then prepend (String (Go.byte_of 12) "") (scan_string r2 0)
                else if m =? 110 then prepend (String (Go.byte_of 10) "") (scan_string r2 0)
                else if m =? 114 then prepend (String (Go.byte_of 13) "") (scan_string r2 0)
                else if m =? 116 then prepend (String (Go.byte_of 9) "") (scan_string r2 0)
                else if m =? 117 then
                  match r2 with
                  | String h1 (String h2 (String h3 (String h4 r3))) =>
                      match hex4 h1 h2 h3 h4 with
                      | None => None
                      | Some u =>
                          if is_surrogate u then
                            match r3 with
                            | String b1 (String b2
                                (String g1 (String g2 (String g3 (String g4 r4))))) =>
                                match
                                  (if (Go.code b1 =? 92) && (Go.code b2 =? 117)
                                   then hex4 g1 g2 g3 g4 else None)
                                with
                                | Some u2 =>
                                    match surrogate_pair u u2 with
                                    | Some p => prepend (utf8_encode p) (scan_string r4 0)
                                    | None => prepend (utf8_encode 65533) (scan_string r3 0)
                                    end
                                | None => prepend (utf8_encode 65533) (scan_string r3 0)
                                end
                            | _ => prepend (utf8_encode 65533) (scan_string r3 0)
                            end
                          else prepend (utf8_encode u) (scan_string r3 0)
                      end
                  | _ => None
                  end
                else None
            | EmptyString => None
            end
          else if n <? 32 then None
          else if n <? 128 then prepend (String c "") (scan_string r 0)
          else
            match utf8_len s with
            | O => prepend (utf8_encode 65533) (scan_string r 0)
            | S k => prepend (String c "") (scan_string r k)
            end
      end
  end.

Fixpoint digits (s : string) : string * string :=
  match s with
  | String c r =>
      if Go.is_digit c then let (d, rest) := digits r in (String c d, rest)
      else ("", s)
  | EmptyString => ("", "")
  end.

(** The integer part of a number literal: [0], or digits without
    leading zero. *)
Definition scan_int (s : string) : option (string * string) :=
  match s with
  | String c r =>
      if Go.code c =? 48 then Some ("0", r)
      else if Go.is_digit c then
        let (d, rest) := digits r in Some (String c d, rest)
      else None
  | EmptyString => None
  end.

(** The optional fraction: a dot and at least one digit. *)
Definition scan_frac (s : string) : option (string * string) :=
  match s with
  | String c r =>
      if Go.code c =? 46 then
        let (d, rest) := digits r in
        match d with
        | EmptyString => None
        | _ => Some (String c d, rest)
        end
      else Some ("", s)
  | EmptyString => Some ("", s)
  end.

(** The optional exponent: [e] or [E], an optional sign and at least
    one digit. *)
Definition scan_exp (s : string) : option (string * string) :=
  match s with
  | String c r =>
      if (Go.code c =? 101) || (Go.code c =? 69) then
        let '(sg, r') :=
          match r with
          | String x r' =>
              if (Go.code x =? 43) || (Go.code x =? 45)
              then (String x "", r') else ("", r)
          | EmptyString => ("", r)
          end in
        let (d, rest) := digits r' in
        match d with
        | EmptyString => None
        | _ => Some (String c (sg ++ d), rest)
        end
      else Some ("", s)
  | EmptyString => Some ("", s)
  end.

(** A number literal: an optional minus sign, the integer part, the
    fraction and the exponent. *)
Definition scan_number (s : string) : option (string * string) :=
  let '(sign, s1) :=
    match s with
    | String c r => if Go.code c =? 45 then ("-", r) else ("", s)
    | EmptyString => ("", s)
    end in
  match scan_int s1 with
  | None => None
  | Some (ip, s2) =>
      match scan_frac s2 with
      | None => None
      | Some (fp, s3) =>
          match scan_exp s3 with
          | None => None
          | Some (ep, s4) => Some (sign ++ ip ++ fp ++ ep, s4)
          end
      end
  end.

Definition literal (lit : string) (v : value) (s : string)
  : option (value * string) :=
  if String.prefix lit s
  then Some (v, substring (String.length lit) (String.length s - String.length lit) s)
  else None.

(** One JSON value at the head of [s] (after white space), and the rest
    of the input.  [fuel] bounds the number of nested calls. *)
Fixpoint parse_value (fuel : nat) (s : string) : option (value * string) :=
  match fuel with
  | O => None
  | S fuel' =>
      match skip_space s with
      | EmptyString => None
      | String c r =>
          let n := Go.code c in
          if n =? 123 then
            match skip_space r with
            | String c' r' =>
                if Go.code c' =? 125 then Some (Object [], r')
                else
                  match parse_members fuel' r with
                  | Some (ms, rest) => Some (Object ms, rest)
                  | None => None
                  end
            | EmptyString => None
            end
          else if n =? 91 then
            match skip_space r with
            | String c' r' =>
                if Go.code c' =? 93 then Some (Array [], r')
                else
                  match parse_elements fuel' r with
                  | Some (vs, rest) => Some (Array vs, rest)
                  | None => None
                  end
            | EmptyString => None
            end
          else if n =? 34 then
            match scan_string r 0 with
            | Some (str, rest) => Some (Str str, rest)
            | None => None
            end
          else if (n =? 45) || Go.is_digit c then
            match scan_number (String c r) with
            | Some (lit, rest) => Some (Number lit, rest)
            | None => None
            end
          else if n =? 116 then literal "true" (Bool true) (String c r)
          else if n =? 102 then literal "false" (Bool false) (String c r)
          else if n =? 110 then literal "null" Null (String c r)
          else None
      end
  end
with parse_elements (fuel : nat) (s : string) : option (list value * string) :=
  match fuel with
  | O => None
  | S fuel' =>
      match parse_value fuel' s with
      | None => None
      | Some (v, r) =>
          match skip_space r with
          | String c r' =>
              if Go.code c =? 44 then
                match parse_elements fuel' r' with
                | Some (vs, rest) => Some (v :: vs, rest)
                | None => None
                end
              else if Go.code c =? 93 then Some ([v], r')
              else None
          | EmptyString => None
          end
      end
  end
with parse_members (fuel : nat) (s : string)
  : option (list (string * value) * string) :=
  match fuel with
  | O => None
  | S fuel' =>
      match skip_space s with
      | String q r =>
          if Go.code q =? 34 then
            match scan_string r 0 with
            | None => None
            | Some (key, r1) =>
                match skip_space r1 with
                | String c r2 =>
                    if Go.code c =? 58 then
                      match parse_value fuel' r2 with
                      | None => None
                      | Some (v, r3) =>
                          match skip_space r3 with
                          | String d r4 =>
                              if Go.code d =? 44 then
                                match parse_members fuel' r4 with
                                | Some (ms, rest) => Some ((key, v) :: ms, rest)
                                | None => None
                                end
                              else if Go.code d =? 125 then Some ([(key, v)], r4)
                              else None
                          | EmptyString => None
                          end
                      end
                    else None
                | EmptyString => None
                end
            end
          else None
      | EmptyString => None
      end
  end.

(** The whole input is one JSON value between white space. *)
Definition parse (data : string) : option value :=
  match parse_value (2 * String.length data + 3) data with
  | Some (v, rest) =>
      match skip_space rest with
      | EmptyString => Some v
      | _ => None
      end
  | None => None
  end.

(** *** Storing a value into a Go target *)

(** Folding of a member name for the case-insensitive field match: ASCII
    letters are upper-cased, U+017F (long s) and U+212A (Kelvin sign) fold
    to [S] and [K]; no other rune folds to an ASCII byte. *)
Fixpoint fold_name (s : string) : string :=
  match s with
  | EmptyString => EmptyString
  | String c r =>
      let n := Go.code c in
      if n <? 128 then String (Go.to_upper c) (fold_name r)
      else
        match r with
        | String c1 r1 =>
            if (n =? 197) && (Go.code c1 =? 191)
            then String (Go.byte_of 83) (fold_name r1)
            else
              match r1 with
              | String c2 r2 =>
                  if (n =? 226) && (Go.code c1 =? 132) && (Go.code c2 =? 170)
                  then String (Go.byte_of 75) (fold_name r2)
                  else String c (fold_name r)
              | EmptyString => String c (fold_name r)
              end
        | EmptyString => String c (fold_name r)
        end
  end.

(** The struct field that receives the member [key]: the field whose
    name is [key], else the first field whose name equals [key] under
    folding. *)
Definition find_field (fields : list string) (key : string) : option string :=
  match List.find (String.eqb key) fields with
  | Some f => Some f
  | None =>
      List.find (fun f => String.eqb (fold_name f) (fold_name key)) fields
  end.

(** The outcome of storing into a target: [Cont t e] when decoding goes
    on ([e] is an [UnmarshalTypeError] that was saved and is returned at
    the end), [Halt t e] when an [Unmarshaler] returned [e] and decoding
    stops. *)
Inductive stored (T : Type) :=
| Cont (t : T) (saved : option error)
| Halt (t : T) (e : error).

Arguments Cont {T} t saved.
Arguments Halt {T} t e.

Definition save (saved e : option error) : option error :=
  match saved with
  | Some _ => saved
  | None => e
  end.

(** A JSON value stored into a [string]. *)
Definition store_string (x : value) (old : string) : stored string :=
  match x with
  | Str s => Cont s None
  | Null => Cont old None
  | _ => Cont old (Some UnmarshalTypeError)
  end.

(** A JSON value stored into an [int]. *)
Definition store_int (x : value) (old : Z) : stored Z :=
  match x with
  | Number lit =>
      match strconv.ParseInt lit with
      | (n, None) => Cont n None
      | (_, Some _) => Cont old (Some UnmarshalTypeError)
      end
  | Null => Cont old None
  | _ => Cont old (Some UnmarshalTypeError)
  end.

(** The stored value put back into the struct that holds it. *)
Definition with_field {A T : Type} (s : stored A) (put : A -> T) : stored T :=
  match s with
  | Cont a e => Cont (put a) e
  | Halt a e => Halt (put a) e
  end.

(** The members of an object stored one after the other, in the order of
    the input; [field] stores one member. *)
Fixpoint store_members {T : Type} (field : string -> value -> T -> stored T)
    (ms : list (string * value)) (t : T) (saved : option error) : stored T :=
  match ms with
  | [] => Cont t saved
  | (k, x) :: rest =>
      match field k x t with
      | Cont t' e => store_members field rest t' (save saved e)
      | Halt t' e => Halt t' e
      end
  end.

(** A JSON value stored into a struct. *)
Definition store_struct {T : Type} (field : string -> value -> T -> stored T)
    (x : value) (t : T) : stored T :=
  match x with
  | Object ms => store_members field ms t None
  | Null => Cont t None
  | _ => Cont t (Some UnmarshalTypeError)
  end.

(** [json.Unmarshal(data, &t)]: the target after the call and the error. *)
Definition Unmarshal {T : Type} (store : value -> T -> stored T)
    (data : string) (t : T) : T * option error :=
  match parse data with
  | None => (t, Some SyntaxError)
  | Some x =>
      match store x t with
      | Cont t' e => (t', e)
      | Halt t' e => (t', Some e)
      end
  end.

End json.

(** ** Errors *)

(** [type ErrorCode string] and its constants. *)
Definition ErrorCode : Type := string.

Definition ErrorCodeServiceError : ErrorCode := "service_error".
Definition ErrorCodeLimitReached : ErrorCode := "limit_reached".
Definition ErrorCodeUnknownError : ErrorCode := "unknown_error".

(** [type Error struct]: an error returned from the API. *)
Record Error := { Code : ErrorCode; Message : string }.

(** The values of the interface type [error] that occur: one constructor
    for the dynamic type [Error], one for each [fmt.Errorf] call of
    [client.go], and the errors made outside of it. *)
Inductive error :=
| APIError (e : Error)
| MetaDataError (cause : error)
| StatusCodeError (status : Z)
| JSONError (e : json.error)
| OtherError (msg : string).

(** The type assertion [err.(Error)]. *)
Definition as_Error (err : error) : option Error :=
  match err with
  | APIError e => Some e
  | _ => None
  end.

(** ** Packages [io], [bytes] and [net/http] *)

Module io.

(** A reader: the bytes it still delivers, and how it ends (end of file,
    or a read error). *)
Record Reader := { pending : string; failure : option error }.

(** [ioutil.ReadAll(r)]: the bytes read, the error, and the reader after
    the call. *)
Definition ReadAll (r : Reader) : (string * option error) * Reader :=
  ((pending r, failure r), {| pending := EmptyString; failure := failure r |}).

(** [ioutil.NopCloser(bytes.NewReader(b))] *)
Definition NewReader (b : string) : Reader :=
  {| pending := b; failure := None |}.

End io.

Module http.

(** The bytes of a header field name (an HTTP token). *)
Definition valid_field_byte (c : ascii) : bool :=
  Go.is_lower c || Go.is_upper c || Go.is_digit c
  || strings.contains_byte "!#$%&'*+-.^_`|~" c.

Fixpoint all_valid (s : string) : bool :=
  match s with
  | EmptyString => true
  | String c r => valid_field_byte c && all_valid r
  end.

Fixpoint canonicalize (upper : bool) (s : string) : string :=
  match s with
  | EmptyString => EmptyString
  | String c r =>
      let c' := if upper then Go.to_upper c else Go.to_lower c in
      String c' (canonicalize (Go.code c' =? 45) r)
  end.

(** [textproto.CanonicalMIMEHeaderKey] *)
Definition CanonicalHeaderKey (s : string) : string :=
  if all_valid s then canonicalize true s else s.

(** [type Header map[string][]string] *)
Abbreviation Header := (gmap string (list string)).

(** [Header.Get]: the first value of the canonical key, else the empty
    string. *)
Definition Get (h : Header) (key : string) : string :=
  match h !! CanonicalHeaderKey key with
  | Some (v :: _) => v
  | _ => EmptyString
  end.

(** [Header.Set] *)
Definition Set_ (h : Header) (key v : string) : Header :=
  <[CanonicalHeaderKey key := [v]]> h.

Record Response := {
  StatusCode : Z;
  Header_ : Header;
  Body : io.Reader;
}.

Inductive Context := Background | Ctx (id : nat).

Record Request := {
  Method : string;
  URL : string;
  ReqHeader : Header;
  ReqBody : option io.Reader;
  ReqContext : Context;
}.

End http.

(** The parts of Go's standard library that [client.go] calls and that
    are left open here. *)
Class GoLib := {
  (** [math.Pow] *)
  math_Pow : float -> float -> float;
  (** The result of converting to [int64] a float that [int64] cannot
      represent (implementation-dependent in Go). *)
  int64_of_unrepresentable : float -> Z;
  (** The error of [http.NewRequest(method, url, body)], if any: an
      invalid method or a URL that does not parse. *)
  http_NewRequest_error : string -> string -> option error;
}.

(** The special cases that the documentation of [math.Pow] guarantees:
    [Pow(x, 0) = 1] and [Pow(x, 1) = x] for any [x]. *)
Class GoLibSpec (L : GoLib) : Prop := {
  math_Pow_zero : forall x, math_Pow x 0%float = 1%float;
  math_Pow_one : forall x, math_Pow x 1%float = x;
}.

(** ** Package [hcloud] *)

Section Backoff.
Context {L : GoLib}.

(** [int64(f)], here [time.Duration(f)], for a [float64] [f]. *)
Definition int64_of_float64 (f : float) : Z :=
  match Go.float64_trunc f with
  | Some n => if Go.in_int64b n then n else int64_of_unrepresentable f
  | None => int64_of_unrepresentable f
  end.

(** [type BackoffFunc func(retries int) time.Duration]; a
    [time.Duration] is an [int64] count of nanoseconds. *)
Definition BackoffFunc : Type := Z -> Z.

Definition ConstantBackoff (d : Z) : BackoffFunc :=
  fun _ => d.

Definition ExponentialBackoff (b : float) (d : Z) : BackoffFunc :=
  fun retries =>
    Go.wrap64 (int64_of_float64 (math_Pow b (Go.float64_of_int retries)) * d).

End Backoff.

(** What the documentation of [ExponentialBackoff] states, [b^retries * d],
    over the rationals. *)
Definition formula_ExponentialBackoff (b : float) (d : Z) (retries : Z)
  : option Q :=
  match Go.float64_value b with
  | Some q => Some (Qpower q retries * inject_Z d)%Q
  | None => None
  end.

(** [type ResponseMetaPagination struct] *)
Record ResponseMetaPagination := {
  Page : Z;
  PerPage : Z;
  PreviousPage : Z;
  NextPage : Z;
  LastPage : Z;
  TotalEntries : Z;
}.

(** A [time.Time]: the zero value, or [time.Unix(sec, 0)]. *)
Inductive Time := ZeroTime | Unix (sec : Z).

(** [type ResponseMetaRatelimit struct] *)
Record ResponseMetaRatelimit := {
  Limit : Z;
  Remaining : Z;
  Reset : Time;
}.

(** [type ResponseMeta struct]; [Pagination] is a pointer. *)
Record ResponseMeta := {
  Pagination : option ResponseMetaPagination;
  Ratelimit : ResponseMetaRatelimit;
}.

(** [type Response struct]: the embedded [*http.Response] and [Meta]. *)
Record Response := {
  Resp : http.Response;
  Meta : ResponseMeta;
}.

Definition zero_Pagination : ResponseMetaPagination :=
  {| Page := 0; PerPage := 0; PreviousPage := 0; NextPage := 0;
     LastPage := 0; TotalEntries := 0 |}.

Definition zero_Ratelimit : ResponseMetaRatelimit :=
  {| Limit := 0; Remaining := 0; Reset := ZeroTime |}.

Definition zero_Meta : ResponseMeta :=
  {| Pagination := None; Ratelimit := zero_Ratelimit |}.

Definition set_Body (r : Response) (b : io.Reader) : Response :=
  {| Resp := {| http.StatusCode := http.StatusCode (Resp r);
                http.Header_ := http.Header_ (Resp r);
                http.Body := b |};
     Meta := Meta r |}.

Definition set_Ratelimit (r : Response) (rl : ResponseMetaRatelimit) : Response :=
  {| Resp := Resp r;
     Meta := {| Pagination := Pagination (Meta r); Ratelimit := rl |} |}.

Definition set_Pagination (r : Response) (p : option ResponseMetaPagination)
  : Response :=
  {| Resp := Resp r;
     Meta := {| Pagination := p; Ratelimit := Ratelimit (Meta r) |} |}.

(** The fields of the struct [v] of [UnmarshalJSON], by their tags. *)
Definition pagination_field (k : string) (x : json.value)
    (v : ResponseMetaPagination) : json.stored ResponseMetaPagination :=
  match json.find_field
          ["page"; "per_page"; "previous_page"; "next_page"; "last_page";
           "total_entries"] k with
  | None => json.Cont v None
  | Some f =>
      if String.eqb f "page" then
        json.with_field (json.store_int x (Page v)) (fun n =>
          {| Page := n; PerPage := PerPage v; PreviousPage := PreviousPage v;
             NextPage := NextPage v; LastPage := LastPage v;
             TotalEntries := TotalEntries v |})
      else if String.eqb f "per_page" then
        json.with_field (json.store_int x (PerPage v)) (fun n =>
          {| Page := Page v; PerPage := n; PreviousPage := PreviousPage v;
             NextPage := NextPage v; LastPage := LastPage v;
             TotalEntries := TotalEntries v |})
      else if String.eqb f "previous_page" then
        json.with_field (json.store_int x (PreviousPage v)) (fun n =>
          {| Page := Page v; PerPage := PerPage v; PreviousPage := n;
             NextPage := NextPage v; LastPage := LastPage v;
             TotalEntries := TotalEntries v |})
      else if String.eqb f "next_page" then
        json.with_field (json.store_int x (NextPage v)) (fun n =>
          {| Page := Page v; PerPage := PerPage v; PreviousPage := PreviousPage v;
             NextPage := n; LastPage := LastPage v;
             TotalEntries := TotalEntries v |})
      else if String.eqb f "last_page" then
        json.with_field (json.store_int x (LastPage v)) (fun n =>
          {| Page := Page v; PerPage := PerPage v; PreviousPage := PreviousPage v;
             NextPage := NextPage v; LastPage := n;
             TotalEntries := TotalEntries v |})
      else
        json.with_field (json.store_int x (TotalEntries v)) (fun n =>
          {| Page := Page v; PerPage := PerPage v; PreviousPage := PreviousPage v;
             NextPage := NextPage v; LastPage := LastPage v;
             TotalEntries := n |})
  end.

(** [func (p *ResponseMetaPagination) UnmarshalJSON(data []byte) error].
    [data] is the text of a value of an input that was checked before, so
    it is given by the value [x] it parses to; [json.Unmarshal(data, &v)]
    stores [x] into the zero [v], and [p] is assigned only without error. *)
Definition UnmarshalJSON (x : json.value) (p : ResponseMetaPagination)
  : ResponseMetaPagination * option json.error :=
  match json.store_struct pagination_field x zero_Pagination with
  | json.Cont v None =>
      ({| Page := Page v; PerPage := PerPage v; PreviousPage := PreviousPage v;
          NextPage := NextPage v; LastPage := LastPage v;
          TotalEntries := TotalEntries v |}, None)
  | json.Cont _ (Some e) => (p, Some e)
  | json.Halt _ e => (p, Some e)
  end.

(** The struct [m] of [readMeta]: [m.Meta.Pagination]. *)
Record readMeta_m_Meta := { m_Pagination : ResponseMetaPagination }.

Record readMeta_m := { m_Meta : readMeta_m_Meta }.

Definition zero_m : readMeta_m :=
  {| m_Meta := {| m_Pagination := zero_Pagination |} |}.

(** [Pagination] has the method [UnmarshalJSON], which [encoding/json]
    calls for every value of the member, [null] included; its error stops
    the decoding. *)
Definition m_Meta_field (k : string) (x : json.value) (t : readMeta_m_Meta)
  : json.stored readMeta_m_Meta :=
  match json.find_field ["pagination"] k with
  | None => json.Cont t None
  | Some _ =>
      match UnmarshalJSON x (m_Pagination t) with
      | (p, None) => json.Cont {| m_Pagination := p |} None
      | (p, Some e) => json.Halt {| m_Pagination := p |} e
      end
  end.

Definition m_field (k : string) (x : json.value) (t : readMeta_m)
  : json.stored readMeta_m :=
  match json.find_field ["meta"] k with
  | None => json.Cont t None
  | Some _ =>
      json.with_field (json.store_struct m_Meta_field x (m_Meta t))
        (fun mm => {| m_Meta := mm |})
  end.

(** [func (r *Response) readMeta(body []byte) error]: the response after
    the call, and the error. *)
Definition readMeta (r : Response) (body : string) : Response * option error :=
  let hdr := http.Header_ (Resp r) in
  let rl := Ratelimit (Meta r) in
  let rl :=
    let h := http.Get hdr "RateLimit-Limit" in
    if negb (String.eqb h "") then
      {| Limit := fst (strconv.Atoi h); Remaining := Remaining rl;
         Reset := Reset rl |}
    else rl in
  let rl :=
    let h := http.Get hdr "RateLimit-Remaining" in
    if negb (String.eqb h "") then
      {| Limit := Limit rl; Remaining := fst (strconv.Atoi h);
         Reset := Reset rl |}
    else rl in
  let rl :=
    let h := http.Get hdr "RateLimit-Reset" in
    if negb (String.eqb h "") then
      match strconv.ParseInt h with
      | (ts, None) =>
          {| Limit := Limit rl; Remaining := Remaining rl; Reset := Unix ts |}
      | (_, Some _) => rl
      end
    else rl in
  let r := set_Ratelimit r rl in
  if strings.HasPrefix (http.Get hdr "Content-Type") "application/json" then
    match json.Unmarshal (json.store_struct m_field) body zero_m with
    | (_, Some e) => (r, Some (JSONError e))
    | (m, None) => (set_Pagination r (Some (m_Pagination (m_Meta m))), None)
    end
  else (r, None).

(** The struct [apiError] of [errorFromResponse]: [apiError.Error.Code]
    and [apiError.Error.Message]. *)
Record apiError_Error := { e_Code : string; e_Message : string }.

Record apiError := { e_Error : apiError_Error }.

Definition zero_apiError : apiError :=
  {| e_Error := {| e_Code := ""; e_Message := "" |} |}.

Definition apiError_Error_field (k : string) (x : json.value) (t : apiError_Error)
  : json.stored apiError_Error :=
  match json.find_field ["code"; "message"] k with
  | None => json.Cont t None
  | Some f =>
      if String.eqb f "code" then
        json.with_field (json.store_string x (e_Code t)) (fun s =>
          {| e_Code := s; e_Message := e_Message t |})
      else
        json.with_field (json.store_string x (e_Message t)) (fun s =>
          {| e_Code := e_Code t; e_Message := s |})
  end.

Definition apiError_field (k : string) (x : json.value) (t : apiError)
  : json.stored apiError :=
  match json.find_field ["error"] k with
  | None => json.Cont t None
  | Some _ =>
      json.with_field (json.store_struct apiError_Error_field x (e_Error t))
        (fun e => {| e_Error := e |})
  end.

(** [func errorFromResponse(resp *http.Response, body []byte) error];
    [None] is the nil error. *)
Definition errorFromResponse (resp : http.Response) (body : string)
  : option error :=
  if negb (strings.HasPrefix (http.Get (http.Header_ resp) "Content-Type")
             "application/json")
  then None
  else
    match json.Unmarshal (json.store_struct apiError_field) body zero_apiError with
    | (_, Some _) => None
    | (a, None) =>
        if String.eqb (e_Code (e_Error a)) "" && String.eqb (e_Message (e_Error a)) ""
        then None
        else Some (APIError {| Code := e_Code (e_Error a);
                               Message := e_Message (e_Error a) |})
    end.

(** [func (r *Response) ReadBody() ([]byte, error)]: the bytes ([None]
    for the nil slice), the error, and the response after the call. *)
Definition ReadBody (r : Response) : (option string * option error) * Response :=
  match io.ReadAll (http.Body (Resp r)) with
  | ((_, Some err), rd) => ((None, Some err), set_Body r rd)
  | ((body, None), _) => ((Some body, None), set_Body r (io.NewReader body))
  end.

(** [c.httpClient.Do(r)]: the response of the server, or the error of
    the transport. *)
Definition RoundTrip : Type := http.Request -> http.Response + error.

(** [type Client struct].  [backoffFunc] is a func value, which may be
    nil.  The resource clients [Action], [Server] and [SSHKey] only hold a
    pointer back to the client. *)
Record Client := {
  endpoint : string;
  token : string;
  backoffFunc : option BackoffFunc;
  httpClient : RoundTrip;
}.

(** [type ClientOption func(client *Client)] *)
Definition ClientOption : Type := Client -> Client.

Definition WithEndpoint (e : string) : ClientOption :=
  fun client =>
    {| endpoint := strings.TrimRight e "/"; token := token client;
       backoffFunc := backoffFunc client; httpClient := httpClient client |}.

Definition WithToken (t : string) : ClientOption :=
  fun client =>
    {| endpoint := endpoint client; token := t;
       backoffFunc := backoffFunc client; httpClient := httpClient client |}.

Definition WithBackoffFunc (f : option BackoffFunc) : ClientOption :=
  fun client =>
    {| endpoint := endpoint client; token := token client;
       backoffFunc := f; httpClient := httpClient client |}.

(** The decoding target [v interface{}] of [Do]: nil, an [io.Writer]
    (given by the error of writing the bytes to it), or a value that
    [json.Unmarshal] decodes into (given by the error of doing so). *)
Inductive Target :=
| NoTarget
| WriterTarget (write : string -> option error)
| ValueTarget (unmarshal : string -> option error).

(** The effects of the pagination driver that the outside observes. *)
Inductive Effect :=
| Fetch (page : Z)
| Sleep (d : Z).

(** How a call ends: it returns, or it panics. *)
Inductive Outcome :=
| Returned (resp : option Response) (err : option error)
| Panicked.

Section Client.
Context {L : GoLib}.

(** [func NewClient(options ...ClientOption)]; [net] is the
    behaviour of the default [http.Client]. *)
Definition NewClient (net : RoundTrip) (options : list ClientOption) : Client :=
  fold_left (fun client option => option client) options
    {| endpoint := ""; token := "";
       backoffFunc := Some (ExponentialBackoff 2 (500 * 1000000));
       httpClient := net |}.

(** [http.NewRequest(method, url, body)] *)
Definition http_NewRequest (method url : string) (body : option io.Reader)
  : option http.Request * option error :=
  match http_NewRequest_error method url with
  | Some err => (None, Some err)
  | None =>
      (Some {| http.Method := if String.eqb method "" then "GET" else method;
               http.URL := url;
               http.ReqHeader := ∅;
               http.ReqBody := body;
               http.ReqContext := http.Background |}, None)
  end.

Definition set_ReqHeader (req : http.Request) (key v : string) : http.Request :=
  {| http.Method := http.Method req; http.URL := http.URL req;
     http.ReqHeader := http.Set_ (http.ReqHeader req) key v;
     http.ReqBody := http.ReqBody req;
     http.ReqContext := http.ReqContext req |}.

Definition WithContext (req : http.Request) (ctx : http.Context) : http.Request :=
  {| http.Method := http.Method req; http.URL := http.URL req;
     http.ReqHeader := http.ReqHeader req;
     http.ReqBody := http.ReqBody req;
     http.ReqContext := ctx |}.

(** [func (c *Client) NewRequest(ctx, method, path, body)] *)
Definition NewRequest (c : Client) (ctx : http.Context) (method path : string)
    (body : option io.Reader) : option http.Request * option error :=
  let url := endpoint c ++ path in
  match http_NewRequest method url body with
  | (_, Some err) => (None, Some err)
  | (None, None) => (None, None)
  | (Some req, None) =>
      let req := set_ReqHeader req "User-Agent" "hcloud-go/1.0.0" in
      let req := set_ReqHeader req "Authorization" ("Bearer " ++ token c) in
      let req :=
        match body with
        | Some _ => set_ReqHeader req "Content-Type" "application/json"
        | None => req
        end in
      (Some (WithContext req ctx), None)
  end.

(** [func (c *Client) Do(r *http.Request, v interface{})]: the
    response and the error *)
Definition Do (c : Client) (r : http.Request) (v : Target)
  : option Response * option error :=
  match httpClient c r with
  | inr err => (None, Some err)
  | inl resp =>
      let response := {| Resp := resp; Meta := zero_Meta |} in
      match io.ReadAll (http.Body resp) with
      | ((_, Some err), rd) => (Some (set_Body response rd), Some err)
      | ((body, None), _) =>
          let response := set_Body response (io.NewReader body) in
          match readMeta response body with
          | (response, Some err) => (Some response, Some (MetaDataError err))
          | (response, None) =>
              let status := http.StatusCode resp in
              if (400 <=? status) && (status <=? 599) then
                match errorFromResponse (Resp response) body with
                | None => (Some response, Some (StatusCodeError status))
                | Some err => (Some response, Some err)
                end
              else
                match v with
                | NoTarget => (Some response, None)
                | WriterTarget write => (Some response, write body)
                | ValueTarget unmarshal => (Some response, unmarshal body)
                end
          end
      end
  end.

(** *** The pagination driver *)

Section Driver.
(** The state that the page fetcher closes over and changes. *)
Context {W : Type}.

(** The argument [f] of [all], a func from the page number to a
    response and an error. *)
Definition PageFetcher : Type := Z -> W -> (option Response * option error) * W.

(** The variables of [all] between two iterations of its loop, the
    state of the fetcher and the effects so far. *)
Record Loop := {
  retries : Z;
  page : Z;
  world : W;
  effects : list Effect;
}.

(** The end of a call of [all]. *)
Record Final := {
  outcome : Outcome;
  final_world : W;
  final_effects : list Effect;
}.

(** One iteration of the loop of [all]: the next iteration, or the end.
    [c.backoff(retries)] is [time.Sleep(c.backoffFunc(retries))]. *)
Definition all_iteration (c : Client) (f : PageFetcher) (st : Loop)
  : Loop + Final :=
  let '((resp, err), w) := f (page st) (world st) in
  let fx := (effects st ++ [Fetch (page st)])%list in
  match err with
  | Some err =>
      let stop :=
        inr {| outcome := Returned None (Some err); final_world := w;
               final_effects := fx |} in
      match as_Error err with
      | Some e =>
          if String.eqb (Code e) ErrorCodeLimitReached then
            match backoffFunc c with
            | None =>
                inr {| outcome := Panicked; final_world := w;
                       final_effects := fx |}
            | Some backoff =>
                inl {| retries := Go.wrap64 (retries st + 1);
                       page := page st;
                       world := w;
                       effects := (fx ++ [Sleep (backoff (retries st))])%list |}
            end
          else stop
      | None => stop
      end
  | None =>
      match resp with
      | None =>
          inr {| outcome := Panicked; final_world := w; final_effects := fx |}
      | Some r =>
          match Pagination (Meta r) with
          | None =>
              inr {| outcome := Returned (Some r) None; final_world := w;
                     final_effects := fx |}
          | Some p =>
              if NextPage p =? 0 then
                inr {| outcome := Returned (Some r) None; final_world := w;
                       final_effects := fx |}
              else
                inl {| retries := 0; page := NextPage p; world := w;
                       effects := fx |}
          end
      end
  end.

(** At most [n] iterations from [st]: the end of the call, or the loop
    state when the call is still running. *)
Fixpoint all_loop (n : nat) (c : Client) (f : PageFetcher) (st : Loop)
  : Loop + Final :=
  match n with
  | O => inl st
  | S n' =>
      match all_iteration c f st with
      | inl st' => all_loop n' c f st'
      | inr fin => inr fin
      end
  end.

(** [func (c *Client) all(f)], run for at
    most [n] iterations from the state [w] of the fetcher. *)
Definition all (n : nat) (c : Client) (f : PageFetcher) (w : W) : Loop + Final :=
  all_loop n c f {| retries := 0; page := 1; world := w; effects := [] |}.

End Driver.

End Client.

(** ** Example inputs *)

(** JSON texts are written with ['] in place of the double quote. *)
Fixpoint quoted (s : string) : string :=
  match s with
  | EmptyString => EmptyString
  | String c r =>
      String (if Go.code c =? 39 then Go.byte_of 34 else c) (quoted r)
  end.

(** A function with the special cases of [math.Pow]; other integral
    exponents are computed by repeated multiplication. *)
Definition reference_Pow (x y : float) : float :=
  if PrimFloat.eqb y 0 then 1%float
  else if PrimFloat.eqb y 1 then x
  else
    match Go.float64_trunc y with
    | Some (Z.pos n) => Pos.iter (fun a => PrimFloat.mul a x) 1%float n
    | Some (Z.neg n) =>
        PrimFloat.div 1 (Pos.iter (fun a => PrimFloat.mul a x) 1%float n)
    | _ => PrimFloat.nan
    end.

Fixpoint has_control_byte (s : string) : bool :=
  match s with
  | EmptyString => false
  | String c r => (Go.code c <? 32) || (Go.code c =? 127) || has_control_byte r
  end.

(** An instance of the library: conversions of unrepresentable floats
    give the smallest [int64] (as on amd64); a request is refused for a
    method that is no token and for a URL with a control byte. *)
Definition reference_lib : GoLib :=
  {| math_Pow := reference_Pow;
     int64_of_unrepresentable := fun _ => Go.int64_min;
     http_NewRequest_error := fun method url =>
       if negb (http.all_valid method)
       then Some (OtherError "net/http: invalid method")
       else if has_control_byte url
       then Some (OtherError "net/url: invalid control character in URL")
       else None |}.

Definition json_header : http.Header :=
  {[ "Content-Type" := ["application/json; charset=utf-8"] ]}.

(** A response of the server with a JSON body. *)
Definition json_response (status : Z) (body : string) : http.Response :=
  {| http.StatusCode := status; http.Header_ := json_header;
     http.Body := io.NewReader body |}.

(** A response of a page fetcher whose pagination names [next] as the
    next page. *)
Definition page_response (next : Z) : Response :=
  {| Resp := json_response 200 "";
     Meta := {| Pagination :=
                  Some {| Page := 0; PerPage := 0; PreviousPage := 0;
                          NextPage := next; LastPage := 0; TotalEntries := 0 |};
                Ratelimit := zero_Ratelimit |} |}.

Definition limit_reached : error :=
  APIError {| Code := ErrorCodeLimitReached; Message := "limit reached" |}.

(** Fetchers over a world that counts the calls made so far. *)
Definition three_pages : PageFetcher (W := nat) :=
  fun p w => ((Some (page_response (if p <? 3 then p + 1 else 0)), None), S w).

Definition always_limited : PageFetcher (W := nat) :=
  fun p w => ((None, Some limit_reached), S w).

Definition limited_once : PageFetcher (W := nat) :=
  fun p w =>
    match w with
    | O => ((None, Some limit_reached), S w)
    | _ => ((Some (page_response 0), None), S w)
    end.

Definition not_found_at_2 : PageFetcher (W := nat) :=
  fun p w =>
    if p =? 2
    then ((None, Some (APIError {| Code := "not_found"; Message := "x" |})), S w)
    else ((Some (page_response (p + 1)), None), S w).

Definition no_network : RoundTrip :=
  fun _ => inr (OtherError "dial tcp: connection refused").

(** A server that answers every request with the same response. *)
Definition serves (resp : http.Response) : RoundTrip := fun _ => inl resp.

Definition example_client (net : RoundTrip) : Client :=
  {| endpoint := "https://api.hetzner.cloud/v1"; token := "token";
     backoffFunc := Some (ConstantBackoff 1000);
     httpClient := net |}.

Definition example_request : http.Request :=
  {| http.Method := "GET"; http.URL := "https://api.hetzner.cloud/v1/servers";
     http.ReqHeader := ∅; http.ReqBody := None;
     http.ReqContext := http.Background |}.

(** ** More of the package *)

Module url.

(** [type Values map[string][]string] *)
Abbreviation Values := (gmap string (list string)).

(** [Values.Add]: the value is appended to the values of the key. *)
Definition Add (v : Values) (key value : string) : Values :=
  <[key := (default [] (v !! key) ++ [value])%list]> v.

End url.

(** [type ListOpts struct] *)
Record ListOpts := {
  opts_Page : Z;
  opts_PerPage : Z;
}.

(** [func valuesForListOpts(opts ListOpts) url.Values] *)
Definition valuesForListOpts (opts : ListOpts) : url.Values :=
  let vals : url.Values := ∅ in
  let vals :=
    if 0 <? opts_Page opts
    then url.Add vals "page" (strconv.Itoa (opts_Page opts)) else vals in
  let vals :=
    if 0 <? opts_PerPage opts
    then url.Add vals "per_page" (strconv.Itoa (opts_PerPage opts)) else vals in
  vals.

(** [func (e Error) Error() string]: [fmt.Sprintf] of the message and
    the code in parentheses. *)
Definition Error_Error (e : Error) : string :=
  Message e ++ " (" ++ Code e ++ ")".

(** The options that the package provides. *)
Inductive provided_option : ClientOption -> Prop :=
| provided_WithEndpoint (e : string) : provided_option (WithEndpoint e)
| provided_WithToken (t : string) : provided_option (WithToken t)
| provided_WithBackoffFunc (f : option BackoffFunc) :
    provided_option (WithBackoffFunc f).

(** The error of the decoding target of [Do] for the bytes [body]. *)
Definition decode_into (v : Target) (body : string) : option error :=
  match v with
  | NoTarget => None
  | WriterTarget write => write body
  | ValueTarget unmarshal => unmarshal body
  end.

(** The value of a string of decimal digits read after the number [m]. *)
Fixpoint decimal_value (s : string) (m : Z) : Z :=
  match s with
  | EmptyString => m
  | String c r => decimal_value r (m * 10 + (Go.code c - 48))
  end.

Fixpoint all_digits (s : string) : bool :=
  match s with
  | EmptyString => true
  | String c r => Go.is_digit c && all_digits r
  end.

(** *** Floating IPs ([hcloud/floating_ip.go]) *)

(** [type FloatingIPType string] and its constants. *)
Definition FloatingIPType : Type := string.

Definition FloatingIPTypeIPv4 : FloatingIPType := "ipv4".
Definition FloatingIPTypeIPv6 : FloatingIPType := "ipv6".

(** [type DNSNotFoundError struct], the error value of
    [GetDNSPtrForIP], over the type [IP] of IP addresses. *)
Record DNSNotFoundError (IP : Type) := { DNSNotFoundError_IP : IP }.

Arguments DNSNotFoundError_IP {IP} _.

Section FloatingIP.
(** The types [Location], [Server] and [net.IP] belong to other files;
    of a location and a server only the presence matters here, of an IP
    address only its text [ip.String()]. *)
Context {Location Server IP : Type}.
Variable IP_String : IP -> string.

(** [type FloatingIPCreateOpts struct] *)
Record FloatingIPCreateOpts := {
  create_Type : FloatingIPType;
  create_HomeLocation : option Location;
  create_Server : option Server;
  create_Description : option string;
  create_Name : option string;
  create_Labels : option (gmap string string);
}.

(** [func (o FloatingIPCreateOpts) Validate() error] *)
Definition Validate (o : FloatingIPCreateOpts) : option error :=
  if String.eqb (create_Type o) FloatingIPTypeIPv4
     || String.eqb (create_Type o) FloatingIPTypeIPv6
  then
    match create_HomeLocation o, create_Server o with
    | None, None => Some (OtherError "one of home location or server is required")
    | _, _ => None
    end
  else Some (OtherError "missing or invalid type").

(** [func (f *FloatingIP) DNSPtrForIP(ip net.IP) string], as a function
    of the field [DNSPtr] of [f], the map of the reverse DNS pointers (the
    nil map is the empty map). *)
Definition DNSPtrForIP (DNSPtr : gmap string string) (ip : IP) : string :=
  default EmptyString (DNSPtr !! IP_String ip).

(** [func (f *FloatingIP) GetDNSPtrForIP(ip net.IP) (string, error)] *)
Definition GetDNSPtrForIP (DNSPtr : gmap string string) (ip : IP)
  : string * option (DNSNotFoundError IP) :=
  match DNSPtr !! IP_String ip with
  | Some dns => (dns, None)
  | None => (EmptyString, Some {| DNSNotFoundError_IP := ip |})
  end.

End FloatingIP.

(** A fetcher that is rate limited at its first [k] calls and then
    returns the last page; its world counts the calls. *)
Definition limited_first (k : nat) : PageFetcher (W := nat) :=
  fun p w =>
    if (w <? k)%nat
    then ((None, Some limit_reached), S w)
    else ((Some (page_response 0), None), S w).

(** A fetcher whose every response names the page itself as the next. *)
Definition same_page_again : PageFetcher (W := nat) :=
  fun p w => ((Some (page_response p), None), S w).

(** A fetcher over [last] pages. *)
Definition pages_up_to (last : Z) : PageFetcher (W := nat) :=
  fun p w =>
    ((Some (page_response (if p <? last then p + 1 else 0)), None), S w).

(** ** Vocabulary of the statements *)

(** The condition of the driver to stop after a successful fetch. *)
Definition last_page (r : Response) : Prop :=
  Pagination (Meta r) = None
  \/ exists p, Pagination (Meta r) = Some p /\ NextPage p = 0.

(** The effects of [n] rounds of fetching [p] and backing off, the
    retry count starting at [r0]. *)
Definition retry_rounds (backoff : BackoffFunc) (p r0 : Z) (n : nat)
  : list Effect :=
  flat_map (fun k => [Fetch p; Sleep (backoff (Go.wrap64 (r0 + Z.of_nat k)))])
    (seq 0 n).

(** The response that [Do] holds once it has read [body] from the
    response [resp] of the server and put it back. *)
Definition buffered (resp : http.Response) (body : string) : Response :=
  set_Body {| Resp := resp; Meta := zero_Meta |} (io.NewReader body).

Definition json_content (h : http.Header) : bool :=
  strings.HasPrefix (http.Get h "Content-Type") "application/json".

(** The member [key] of a JSON object, by its exact name. *)
Definition member (key : string) (x : json.value) : option json.value :=
  match x with
  | json.Object ms =>
      match List.find (fun kv => String.eqb key (fst kv)) ms with
      | Some kv => Some (snd kv)
      | None => None
      end
  | _ => None
  end.

(** The value at [meta.pagination]. *)
Definition meta_pagination (x : json.value) : option json.value :=
  match member "meta" x with
  | Some m => member "pagination" m
  | None => None
  end.

(** No member of [ms] is stored into the field named [field]. *)
Definition no_member (field : string) (ms : list (string * json.value)) : bool :=
  forallb (fun kv =>
             match json.find_field [field] (fst kv) with
             | None => true
             | Some _ => false
             end) ms.

(** [x] is an envelope without pagination: null, or an object each of
    whose [meta] members is null or an object without [pagination]
    member. *)
Definition envelope_without_pagination (x : json.value) : bool :=
  match x with
  | json.Null => true
  | json.Object ms =>
      forallb (fun kv =>
                 match json.find_field ["meta"] (fst kv) with
                 | None => true
                 | Some _ =>
                     match snd kv with
                     | json.Null => true
                     | json.Object ms' => no_member "pagination" ms'
                     | _ => false
                     end
                 end) ms
  | _ => false
  end.

(** The classification of error responses as the specification words
    it: no error without JSON content type, no error when code and
    message are both empty after parsing, and otherwise an [Error] that
    carries the parsed code and message. *)
Definition classifier_as_specified (resp : http.Response) (body : string) : Prop :=
  let a :=
    e_Error (fst (json.Unmarshal (json.store_struct apiError_field) body
                    zero_apiError)) in
  if negb (json_content (http.Header_ resp)) then
    errorFromResponse resp body = None
  else if String.eqb (e_Code a) "" && String.eqb (e_Message a) "" then
    errorFromResponse resp body = None
  else
    errorFromResponse resp body =
      Some (APIError {| Code := e_Code a; Message := e_Message a |}).

(** The parsing of the pagination as the specification words it: with a
    JSON content type, a valid JSON body without [meta.pagination] gives a
    pagination that is present and zero; without, the pagination stays
    nil. *)
Definition pagination_as_specified (r : Response) (body : string) : Prop :=
  let r' := fst (readMeta r body) in
  if json_content (http.Header_ (Resp r)) then
    forall x, json.parse body = Some x -> meta_pagination x = None ->
              Pagination (Meta r') = Some zero_Pagination
  else Pagination (Meta r') = None.

(** The string of [k] slashes. *)
Fixpoint slashes (k : nat) : string :=
  match k with
  | O => EmptyString
  | S k' => String "/" (slashes k')
  end.

Fixpoint last_byte (s : string) : option ascii :=
  match s with
  | EmptyString => None
  | String c EmptyString => Some c
  | String _ r => last_byte r
  end.

(** * Properties *)

(** ** Machine integers *)

Lemma wrap64_id (n : Z) : Go.in_int64 n -> Go.wrap64 n = n.
Proof.
  unfold Go.in_int64, Go.wrap64, Go.int64_min, Go.int64_max. intros Hn.
  rewrite Z.mod_small; lia.
Qed.

Lemma wrap64_in_int64 (n : Z) : Go.in_int64 (Go.wrap64 n).
Proof.
  unfold Go.in_int64, Go.wrap64, Go.int64_min, Go.int64_max.
  pose proof (Z.mod_pos_bound (n + 2 ^ 63) (2 ^ 64)). lia.
Qed.

Lemma wrap64_add_l (a b : Z) : Go.wrap64 (Go.wrap64 a + b) = Go.wrap64 (a + b).
Proof.
  unfold Go.wrap64. f_equal.
  replace ((a + 2 ^ 63) mod 2 ^ 64 - 2 ^ 63 + b + 2 ^ 63)
    with ((a + 2 ^ 63) mod 2 ^ 64 + b) by lia.
  rewrite Zplus_mod_idemp_l. f_equal. lia.
Qed.

(** ** The fuel of the JSON parser *)

Lemma skip_space_length (s : string) :
  (String.length (json.skip_space s) <= String.length s)%nat.
Proof.
  induction s as [|c r IH]; cbn [json.skip_space]; [lia|].
  destruct (json.is_space c); cbn [String.length]; lia.
Qed.

Lemma prepend_Some (pre : string) (res : option (string * string))
    (k r : string) :
  json.prepend pre res = Some (k, r) -> exists k', res = Some (k', r).
Proof.
  destruct res as [[k' r']|]; cbn; [|discriminate].
  intros [= _ <-]. now exists k'.
Qed.

Lemma scan_string_length (n : nat) :
  forall (s : string) (copy : nat) (k r : string),
    (String.length s <= n)%nat ->
    json.scan_string s copy = Some (k, r) ->
    (String.length r < String.length s)%nat.
Proof.
  induction n as [|n IH]; intros s copy k r Hn H.
  - destruct s; [discriminate | cbn in Hn; lia].
  - destruct s as [|c s]; [discriminate|].
    cbn [String.length] in Hn |- *.
    cbn [json.scan_string] in H.
    repeat match type of H with
           | json.prepend _ _ = Some _ =>
               apply prepend_Some in H as [? H]; apply IH in H;
               cbn [String.length] in *; try lia
           | Some _ = Some _ => injection H as <- <-; lia
           | None = Some _ => discriminate
           | context [match ?x with _ => _ end] => destruct x eqn:?
           end.
Qed.

Lemma digits_length (s d rest : string) :
  json.digits s = (d, rest) -> (String.length rest <= String.length s)%nat.
Proof.
  revert d rest. induction s as [|c r IH]; intros d rest; cbn [json.digits].
  - intros [= <- <-]. cbn. lia.
  - destruct (Go.is_digit c).
    + destruct (json.digits r) as [d' rest'] eqn:E. intros [= <- <-].
      specialize (IH _ _ eq_refl). cbn [String.length]. lia.
    + intros [= <- <-]. lia.
Qed.

Lemma scan_int_length (s lit r : string) :
  json.scan_int s = Some (lit, r) -> (String.length r < String.length s)%nat.
Proof.
  unfold json.scan_int. destruct s as [|c s]; [discriminate|].
  destruct (Go.code c =? 48).
  - intros [= <- <-]. cbn. lia.
  - destruct (Go.is_digit c); [|discriminate].
    destruct (json.digits s) as [d rest] eqn:E. apply digits_length in E.
    intros [= <- <-]. cbn. lia.
Qed.

Lemma scan_frac_length (s lit r : string) :
  json.scan_frac s = Some (lit, r) -> (String.length r <= String.length s)%nat.
Proof.
  unfold json.scan_frac. destruct s as [|c s]; [intros [= <- <-]; lia|].
  destruct (Go.code c =? 46); [|intros [= <- <-]; lia].
  destruct (json.digits s) as [d rest] eqn:E. apply digits_length in E.
  destruct d; [discriminate|]. intros [= <- <-]. cbn. lia.
Qed.

Lemma scan_exp_length (s lit r : string) :
  json.scan_exp s = Some (lit, r) -> (String.length r <= String.length s)%nat.
Proof.
  unfold json.scan_exp. destruct s as [|c s]; [intros [= <- <-]; lia|].
  destruct ((Go.code c =? 101) || (Go.code c =? 69)); [|intros [= <- <-]; lia].
  destruct s as [|x s'].
  - cbn. discriminate.
  - destruct ((Go.code x =? 43) || (Go.code x =? 45)).
    + destruct (json.digits s') as [d rest] eqn:E. apply digits_length in E.
      destruct d; [discriminate|]. intros [= <- <-]. cbn. lia.
    + destruct (json.digits (String x s')) as [d rest] eqn:E.
      apply digits_length in E.
      destruct d; [discriminate|]. intros [= <- <-]. cbn in *. lia.
Qed.

Lemma scan_number_length (s lit r : string) :
  json.scan_number s = Some (lit, r) ->
  (String.length r < String.length s)%nat.
Proof.
  unfold json.scan_number.
  assert (Hs : forall s1 : string,
             (String.length s1 <= String.length s)%nat ->
             forall sign,
               match json.scan_int s1 with
               | None => None
               | Some (ip, s2) =>
                   match json.scan_frac s2 with
                   | None => None
                   | Some (fp, s3) =>
                       match json.scan_exp s3 with
                       | None => None
                       | Some (ep, s4) => Some (sign +:+ ip +:+ fp +:+ ep, s4)
                       end
                   end
               end = Some (lit, r) ->
               (String.length r < String.length s)%nat).
  { intros s1 Hl sign.
    destruct (json.scan_int s1) as [[ip s2]|] eqn:E1; [|discriminate].
    destruct (json.scan_frac s2) as [[fp s3]|] eqn:E2; [|discriminate].
    destruct (json.scan_exp s3) as [[ep s4]|] eqn:E3; [|discriminate].
    apply scan_int_length in E1. apply scan_frac_length in E2.
    apply scan_exp_length in E3. intros [= _ <-]. lia. }
  destruct s as [|c s']; [apply Hs; lia|].
  destruct (Go.code c =? 45); apply Hs; cbn; lia.
Qed.

Lemma substring_length (s : string) (n m : nat) :
  (String.length (substring n m s) <= m)%nat.
Proof.
  revert n m. induction s as [|c r IH]; intros n m.
  - destruct n, m; cbn; lia.
  - destruct n as [|n]; destruct m as [|m]; cbn [substring String.length];
      try lia.
    + specialize (IH 0%nat m). lia.
    + apply IH.
    + apply IH.
Qed.

Lemma literal_length (lit : string) (v v' : json.value) (s r : string) :
  (0 < String.length lit)%nat -> (0 < String.length s)%nat ->
  json.literal lit v s = Some (v', r) ->
  (String.length r < String.length s)%nat.
Proof.
  unfold json.literal. intros Hl Hs.
  destruct (String.prefix lit s); [|discriminate].
  intros [= _ <-].
  pose proof (substring_length s (String.length lit)
                (String.length s - String.length lit)). lia.
Qed.

Lemma skip_space_cons (s : string) (c : ascii) (r : string) :
  json.skip_space s = String c r -> (String.length r < String.length s)%nat.
Proof.
  intros H. pose proof (skip_space_length s) as Hl. rewrite H in Hl.
  cbn [String.length] in Hl. lia.
Qed.

(** What the parser returns is a proper suffix of its input. *)
Lemma parse_length (fuel : nat) :
  (forall s v r, json.parse_value fuel s = Some (v, r) ->
                 (String.length r < String.length s)%nat)
  /\ (forall s vs r, json.parse_elements fuel s = Some (vs, r) ->
                     (String.length r < String.length s)%nat)
  /\ (forall s ms r, json.parse_members fuel s = Some (ms, r) ->
                     (String.length r < String.length s)%nat).
Proof.
  induction fuel as [|fuel (IHv & IHe & IHm)];
    [repeat split; intros; discriminate|].
  repeat split.
  - intros s v r. cbn [json.parse_value].
    destruct (json.skip_space s) as [|c r0] eqn:Es; [discriminate|].
    apply skip_space_cons in Es.
    destruct (Go.code c =? 123).
    { destruct (json.skip_space r0) as [|c' r'] eqn:Er; [discriminate|].
      apply skip_space_cons in Er.
      destruct (Go.code c' =? 125); [intros [= _ <-]; lia|].
      destruct (json.parse_members fuel r0) as [[ms rest]|] eqn:E;
        [|discriminate].
      apply IHm in E. intros [= _ <-]. lia. }
    destruct (Go.code c =? 91).
    { destruct (json.skip_space r0) as [|c' r'] eqn:Er; [discriminate|].
      apply skip_space_cons in Er.
      destruct (Go.code c' =? 93); [intros [= _ <-]; lia|].
      destruct (json.parse_elements fuel r0) as [[vs rest]|] eqn:E;
        [|discriminate].
      apply IHe in E. intros [= _ <-]. lia. }
    destruct (Go.code c =? 34).
    { destruct (json.scan_string r0 0) as [[str rest]|] eqn:E; [|discriminate].
      apply (scan_string_length _ _ _ _ _ (Nat.le_refl _)) in E.
      intros [= _ <-]. lia. }
    destruct ((Go.code c =? 45) || Go.is_digit c).
    { destruct (json.scan_number (String c r0)) as [[lit rest]|] eqn:E;
        [|discriminate].
      apply scan_number_length in E. cbn [String.length] in E.
      intros [= _ <-]. lia. }
    destruct (Go.code c =? 116).
    { intros H. apply literal_length in H; cbn [String.length] in *; lia. }
    destruct (Go.code c =? 102).
    { intros H. apply literal_length in H; cbn [String.length] in *; lia. }
    destruct (Go.code c =? 110); [|discriminate].
    intros H. apply literal_length in H; cbn [String.length] in *; lia.
  - intros s vs r. cbn [json.parse_elements].
    destruct (json.parse_value fuel s) as [[v r0]|] eqn:Ev; [|discriminate].
    apply IHv in Ev.
    destruct (json.skip_space r0) as [|c r1] eqn:Es; [discriminate|].
    apply skip_space_cons in Es.
    destruct (Go.code c =? 44).
    { destruct (json.parse_elements fuel r1) as [[vs' rest]|] eqn:E;
        [|discriminate].
      apply IHe in E. intros [= _ <-]. lia. }
    destruct (Go.code c =? 93); [|discriminate].
    intros [= _ <-]. lia.
  - intros s ms r. cbn [json.parse_members].
    destruct (json.skip_space s) as [|q r0] eqn:Es; [discriminate|].
    apply skip_space_cons in Es.
    destruct (Go.code q =? 34); [|discriminate].
    destruct (json.scan_string r0 0) as [[key r1]|] eqn:Ek; [|discriminate].
    apply (scan_string_length _ _ _ _ _ (Nat.le_refl _)) in Ek.
    destruct (json.skip_space r1) as [|c r2] eqn:Es1; [discriminate|].
    apply skip_space_cons in Es1.
    destruct (Go.code c =? 58); [|discriminate].
    destruct (json.parse_value fuel r2) as [[v r3]|] eqn:Ev; [|discriminate].
    apply IHv in Ev.
    destruct (json.skip_space r3) as [|d r4] eqn:Es3; [discriminate|].
    apply skip_space_cons in Es3.
    destruct (Go.code d =? 44).
    { destruct (json.parse_members fuel r4) as [[ms' rest]|] eqn:E;
        [|discriminate].
      apply IHm in E. intros [= _ <-]. lia. }
    destruct (Go.code d =? 125); [|discriminate].
    intros [= _ <-]. lia.
Qed.

(** A result that some fuel gives is given by any fuel from twice the
    length of the input on. *)
Lemma parse_fuel (fuel : nat) :
  (forall s res, json.parse_value fuel s = Some res ->
     forall g, (2 * String.length s + 2 <= g)%nat ->
               json.parse_value g s = Some res)
  /\ (forall s res, json.parse_elements fuel s = Some res ->
        forall g, (2 * String.length s + 3 <= g)%nat ->
                  json.parse_elements g s = Some res)
  /\ (forall s res, json.parse_members fuel s = Some res ->
        forall g, (2 * String.length s + 3 <= g)%nat ->
                  json.parse_members g s = Some res).
Proof.
  induction fuel as [|fuel (IHv & IHe & IHm)];
    [repeat split; intros; discriminate|].
  pose proof (parse_length fuel) as (Lv & Le & Lm).
  repeat split.
  - intros s res H g Hg. destruct g as [|g]; [lia|].
    cbn [json.parse_value] in H |- *.
    destruct (json.skip_space s) as [|c r0] eqn:Es; [discriminate|].
    apply skip_space_cons in Es.
    destruct (Go.code c =? 123).
    { destruct (json.skip_space r0) as [|c' r'] eqn:Er; [discriminate|].
      destruct (Go.code c' =? 125); [exact H|].
      destruct (json.parse_members fuel r0) as [[ms rest]|] eqn:E;
        [|discriminate].
      rewrite (IHm _ _ E g) by lia. exact H. }
    destruct (Go.code c =? 91); [|exact H].
    destruct (json.skip_space r0) as [|c' r'] eqn:Er; [discriminate|].
    destruct (Go.code c' =? 93); [exact H|].
    destruct (json.parse_elements fuel r0) as [[vs rest]|] eqn:E;
      [|discriminate].
    rewrite (IHe _ _ E g) by lia. exact H.
  - intros s res H g Hg. destruct g as [|g]; [lia|].
    cbn [json.parse_elements] in H |- *.
    destruct (json.parse_value fuel s) as [[v r0]|] eqn:Ev; [|discriminate].
    rewrite (IHv _ _ Ev g) by lia. apply Lv in Ev.
    destruct (json.skip_space r0) as [|c r1] eqn:Es; [discriminate|].
    apply skip_space_cons in Es.
    destruct (Go.code c =? 44); [|exact H].
    destruct (json.parse_elements fuel r1) as [[vs' rest]|] eqn:E;
      [|discriminate].
    rewrite (IHe _ _ E g) by lia. exact H.
  - intros s res H g Hg. destruct g as [|g]; [lia|].
    cbn [json.parse_members] in H |- *.
    destruct (json.skip_space s) as [|q r0] eqn:Es; [discriminate|].
    apply skip_space_cons in Es.
    destruct (Go.code q =? 34); [|discriminate].
    destruct (json.scan_string r0 0) as [[key r1]|] eqn:Ek; [|discriminate].
    apply (scan_string_length _ _ _ _ _ (Nat.le_refl _)) in Ek.
    destruct (json.skip_space r1) as [|c r2] eqn:Es1; [discriminate|].
    apply skip_space_cons in Es1.
    destruct (Go.code c =? 58); [|discriminate].
    destruct (json.parse_value fuel r2) as [[v r3]|] eqn:Ev; [|discriminate].
    rewrite (IHv _ _ Ev g) by lia. apply Lv in Ev.
    destruct (json.skip_space r3) as [|d r4] eqn:Es3; [discriminate|].
    apply skip_space_cons in Es3.
    destruct (Go.code d =? 44); [|exact H].
    destruct (json.parse_members fuel r4) as [[ms' rest]|] eqn:E;
      [|discriminate].
    rewrite (IHm _ _ E g) by lia. exact H.
Qed.

(** [json.parse] has fuel enough: it finds every value that the parser
    finds with any fuel. *)
Lemma parse_complete (fuel : nat) (data : string) (v : json.value)
    (rest : string) :
  json.parse_value fuel data = Some (v, rest) ->
  json.skip_space rest = EmptyString ->
  json.parse data = Some v.
Proof.
  intros H Hr. unfold json.parse.
  rewrite (proj1 (parse_fuel fuel) data (v, rest) H) by lia.
  now rewrite Hr.
Qed.

(** ** Backoff *)

Lemma reference_lib_spec : GoLibSpec reference_lib.
Proof. split; intros x; reflexivity. Qed.

Lemma ConstantBackoff_const (d n : Z) : ConstantBackoff d n = d.
Proof. reflexivity. Qed.

Section BackoffFacts.
Context {L : GoLib} {LS : GoLibSpec L}.

(** The first wait of the exponential policy is the unit [d]. *)
Lemma ExponentialBackoff_first (b : float) (d : Z) :
  Go.in_int64 d -> ExponentialBackoff b d 0 = d.
Proof.
  intros Hd. unfold ExponentialBackoff.
  change (Go.float64_of_int 0) with 0%float.
  rewrite math_Pow_zero.
  change (int64_of_float64 1) with 1.
  rewrite Z.mul_1_l. now apply wrap64_id.
Qed.

(** C1, at the base 1.5, the unit of one second and the retry count 1:
    [ExponentialBackoff] converts the power 1.5 to the integer 1 before it
    multiplies, and returns one second, whereas the documented formula
    [b^retries * d] gives one and a half seconds. *)
Theorem ExponentialBackoff_discards_fraction :
  ExponentialBackoff 1.5 1000000000 1 = 1000000000
  /\ exists q : Q,
       formula_ExponentialBackoff 1.5 1000000000 1 = Some q
       /\ (q == inject_Z 1500000000)%Q
       /\ ~ (inject_Z (ExponentialBackoff 1.5 1000000000 1%Z) == q)%Q.
Proof.
  assert (E : ExponentialBackoff 1.5 1000000000 1 = 1000000000).
  { unfold ExponentialBackoff.
    change (Go.float64_of_int 1) with 1%float.
    rewrite math_Pow_one.
    change (int64_of_float64 1.5) with 1.
    reflexivity. }
  split; [exact E|].
  rewrite E. eexists. split; [reflexivity|].
  split; unfold Qeq; vm_compute; congruence.
Qed.

End BackoffFacts.

Lemma ExponentialBackoff_discards_fraction_witness :
  @ExponentialBackoff reference_lib 1.5 1000000000 1 = 1000000000.
Proof.
  exact (proj1 (@ExponentialBackoff_discards_fraction reference_lib
                  reference_lib_spec)).
Defined.

(** ** The pagination driver *)

Lemma flat_map_seq_S {A : Type} (g : nat -> list A) (a n : nat) :
  flat_map g (seq (S a) n) = flat_map (fun k => g (S k)) (seq a n).
Proof.
  revert a. induction n as [|n IH]; intros a; simpl; [reflexivity|].
  now rewrite IH.
Qed.

Section DriverFacts.
Context {W : Type}.
Implicit Types (c : Client) (f : PageFetcher (W := W)) (st : Loop (W := W)).

Lemma all_loop_final (n : nat) c f st fin :
  all_iteration c f st = inr fin -> all_loop (S n) c f st = inr fin.
Proof. intros H. simpl. now rewrite H. Qed.

Lemma all_loop_next (n : nat) c f st st' :
  all_iteration c f st = inl st' -> all_loop (S n) c f st = all_loop n c f st'.
Proof. intros H. simpl. now rewrite H. Qed.

(** A fetch that fails with [limit_reached] is followed by a sleep and
    by another iteration on the same page. *)
Lemma all_iteration_limit_reached c f st backoff resp e w :
  backoffFunc c = Some backoff ->
  f (page st) (world st) = ((resp, Some (APIError e)), w) ->
  Code e = ErrorCodeLimitReached ->
  all_iteration c f st =
    inl {| retries := Go.wrap64 (retries st + 1);
           page := page st;
           world := w;
           effects :=
             (effects st ++ [Fetch (page st); Sleep (backoff (retries st))])%list |}.
Proof.
  intros Hb Hf Hc. unfold all_iteration. rewrite Hf. simpl.
  rewrite Hc, Hb. simpl. now rewrite <- app_assoc.
Qed.

(** Any other error ends the call. *)
Lemma all_iteration_error c f st resp err w :
  f (page st) (world st) = ((resp, Some err), w) ->
  (forall e, err = APIError e -> Code e <> ErrorCodeLimitReached) ->
  all_iteration c f st =
    inr {| outcome := Returned None (Some err);
           final_world := w;
           final_effects := (effects st ++ [Fetch (page st)])%list |}.
Proof.
  intros Hf Hne. unfold all_iteration. rewrite Hf.
  destruct err as [e| | | |]; simpl; try reflexivity.
  destruct (String.eqb (Code e) ErrorCodeLimitReached) eqn:E; [|reflexivity].
  apply String.eqb_eq in E. now destruct (Hne e eq_refl).
Qed.

Lemma all_iteration_last_page c f st r w :
  f (page st) (world st) = ((Some r, None), w) ->
  last_page r ->
  all_iteration c f st =
    inr {| outcome := Returned (Some r) None;
           final_world := w;
           final_effects := (effects st ++ [Fetch (page st)])%list |}.
Proof.
  intros Hf Hl. unfold all_iteration. rewrite Hf.
  destruct Hl as [Hn | (p & Hp & Hz)].
  - now rewrite Hn.
  - rewrite Hp, Hz. reflexivity.
Qed.

Lemma all_iteration_next_page c f st r w p :
  f (page st) (world st) = ((Some r, None), w) ->
  Pagination (Meta r) = Some p ->
  NextPage p <> 0 ->
  all_iteration c f st =
    inl {| retries := 0; page := NextPage p; world := w;
           effects := (effects st ++ [Fetch (page st)])%list |}.
Proof.
  intros Hf Hp Hz. unfold all_iteration. rewrite Hf, Hp.
  destruct (NextPage p =? 0) eqn:E; [|reflexivity].
  apply Z.eqb_eq in E. contradiction.
Qed.

(** Against a fetcher that always fails with [limit_reached] the loop
    is still running after any number of iterations. *)
Lemma all_loop_always_limited c f backoff :
  backoffFunc c = Some backoff ->
  (forall p w, exists resp e w',
      f p w = ((resp, Some (APIError e)), w') /\ Code e = ErrorCodeLimitReached) ->
  forall n st,
    Go.wrap64 (retries st) = retries st ->
    exists st',
      all_loop n c f st = inl st'
      /\ page st' = page st
      /\ retries st' = Go.wrap64 (retries st + Z.of_nat n)
      /\ effects st' =
           (effects st ++ retry_rounds backoff (page st) (retries st) n)%list.
Proof.
  intros Hb Hf n. induction n as [|n IH]; intros st Hr.
  - exists st. simpl. rewrite Z.add_0_r, Hr.
    unfold retry_rounds. simpl. now rewrite app_nil_r.
  - destruct (Hf (page st) (world st)) as (resp & e & w' & Hfe & Hc).
    rewrite (all_loop_next n c f st _
               (all_iteration_limit_reached c f st backoff resp e w' Hb Hfe Hc)).
    edestruct IH as (st' & Hl & Hp & Hrt & He); [|exists st'; split; [exact Hl|]].
    { simpl. rewrite wrap64_id; [reflexivity | apply wrap64_in_int64]. }
    simpl in Hp, Hrt, He. repeat split.
    + exact Hp.
    + rewrite Hrt, wrap64_add_l. f_equal. lia.
    + rewrite He, <- app_assoc. f_equal.
      unfold retry_rounds. simpl. rewrite Z.add_0_r, Hr. do 2 f_equal.
      rewrite flat_map_seq_S.
      apply flat_map_ext. intros k. rewrite wrap64_add_l.
      replace (retries st + 1 + Z.of_nat k) with (retries st + Z.of_nat (S k))
        by lia.
      reflexivity.
Qed.

(** C2: when the fetcher fails with an [Error] of code [limit_reached]
    for the page [p], the driver sleeps for the backoff of the current
    retry count, increments the retry count and fetches the same page [p]
    again; there is no bound on the retries: against a fetcher that always
    fails so, the driver is still running after any number [n] of
    iterations, having fetched page 1 [n] times. *)
Theorem all_retries_limit_reached c f backoff :
  backoffFunc c = Some backoff ->
  (forall st resp e w,
      f (page st) (world st) = ((resp, Some (APIError e)), w) ->
      Code e = ErrorCodeLimitReached ->
      all_iteration c f st =
        inl {| retries := Go.wrap64 (retries st + 1);
               page := page st;
               world := w;
               effects :=
                 (effects st
                  ++ [Fetch (page st); Sleep (backoff (retries st))])%list |}
      /\ (Go.in_int64 (retries st) -> retries st < Go.int64_max ->
          Go.wrap64 (retries st + 1) = retries st + 1))
  /\ ((forall p w, exists resp e w',
          f p w = ((resp, Some (APIError e)), w')
          /\ Code e = ErrorCodeLimitReached) ->
      forall n w, exists st,
        all n c f w = inl st
        /\ page st = 1
        /\ retries st = Go.wrap64 (Z.of_nat n)
        /\ effects st = retry_rounds backoff 1 0 n).
Proof.
  intros Hb. split.
  - intros st resp e w Hf Hc. split.
    + now apply all_iteration_limit_reached with (resp := resp) (e := e).
    + intros Hr Hlt. apply wrap64_id.
      unfold Go.in_int64, Go.int64_min, Go.int64_max in *. lia.
  - intros Hf n w. unfold all.
    destruct (all_loop_always_limited c f backoff Hb Hf n
                {| retries := 0; page := 1; world := w; effects := [] |})
      as (st & Hl & Hp & Hr & He); [reflexivity|].
    exists st. simpl in *. auto.
Qed.

(** C3: the driver starts at page 1; after a successful fetch it resets
    the retry count and returns the response without error exactly when
    the pagination is nil or its [NextPage] is 0, and goes on with the
    page [NextPage] otherwise.  A fetcher whose first response has next
    page 0 is called once; a fetcher whose pages 1, 2, 3 name the next
    pages 2, 3, 0 is called three times, with 1, 2, 3, and the driver
    returns the third response without error. *)
Theorem all_follows_next_page c f :
  (forall w,
      all 0 c f w = inl {| retries := 0; page := 1; world := w; effects := [] |})
  /\ (forall st r w,
         f (page st) (world st) = ((Some r, None), w) ->
         (last_page r ->
          all_iteration c f st =
            inr {| outcome := Returned (Some r) None;
                   final_world := w;
                   final_effects := (effects st ++ [Fetch (page st)])%list |})
         /\ (forall p, Pagination (Meta r) = Some p -> NextPage p <> 0 ->
             all_iteration c f st =
               inl {| retries := 0; page := NextPage p; world := w;
                      effects := (effects st ++ [Fetch (page st)])%list |}))
  /\ (forall st resp w fx,
         all_iteration c f st =
           inr {| outcome := Returned resp None;
                  final_world := w; final_effects := fx |}
         <-> exists r,
             resp = Some r
             /\ f (page st) (world st) = ((Some r, None), w)
             /\ last_page r
             /\ fx = (effects st ++ [Fetch (page st)])%list)
  /\ (forall w r w1 p,
         f 1 w = ((Some r, None), w1) ->
         Pagination (Meta r) = Some p -> NextPage p = 0 ->
         forall n,
           all (S n) c f w =
             inr {| outcome := Returned (Some r) None;
                    final_world := w1; final_effects := [Fetch 1] |})
  /\ (forall w r1 w1 p1 r2 w2 p2 r3 w3 p3,
         f 1 w = ((Some r1, None), w1) ->
         Pagination (Meta r1) = Some p1 -> NextPage p1 = 2 ->
         f 2 w1 = ((Some r2, None), w2) ->
         Pagination (Meta r2) = Some p2 -> NextPage p2 = 3 ->
         f 3 w2 = ((Some r3, None), w3) ->
         Pagination (Meta r3) = Some p3 -> NextPage p3 = 0 ->
         forall n,
           all (3 + n) c f w =
             inr {| outcome := Returned (Some r3) None;
                    final_world := w3;
                    final_effects := [Fetch 1; Fetch 2; Fetch 3] |}).
Proof.
  split; [reflexivity|]. split; [|split; [|split]].
  - intros st r w Hf. split.
    + now apply all_iteration_last_page.
    + intros p. now apply all_iteration_next_page.
  - intros st resp w fx. split.
    + unfold all_iteration.
      destruct (f (page st) (world st)) as [[r err] w'] eqn:Hf.
      destruct err as [err|].
      * destruct (as_Error err) as [e|];
          [destruct (String.eqb (Code e) ErrorCodeLimitReached);
           [destruct (backoffFunc c)|]|]; discriminate.
      * destruct r as [r|]; [|discriminate].
        destruct (Pagination (Meta r)) as [p|] eqn:Hp.
        -- destruct (NextPage p =? 0) eqn:E; [|discriminate].
           intros [= <- <- <-]. exists r. repeat split.
           right. exists p. split; [exact Hp|]. now apply Z.eqb_eq.
        -- intros [= <- <- <-]. exists r. repeat split. now left.
    + intros (r & -> & Hf & Hl & ->). now apply all_iteration_last_page.
  - intros w r w1 p Hf Hp Hz n. unfold all.
    apply all_loop_final.
    apply (all_iteration_last_page c f
             {| retries := 0; page := 1; world := w; effects := [] |} r w1 Hf).
    right. now exists p.
  - intros w r1 w1 p1 r2 w2 p2 r3 w3 p3 Hf1 Hp1 Hn1 Hf2 Hp2 Hn2 Hf3 Hp3 Hn3 n.
    unfold all. change (3 + n)%nat with (S (S (S n))).
    rewrite (all_loop_next _ c f _ _
               (all_iteration_next_page c f
                  {| retries := 0; page := 1; world := w; effects := [] |}
                  r1 w1 p1 Hf1 Hp1 ltac:(lia))).
    rewrite Hn1.
    rewrite (all_loop_next _ c f _ _
               (all_iteration_next_page c f
                  {| retries := 0; page := 2; world := w1;
                     effects := ([] ++ [Fetch 1])%list |}
                  r2 w2 p2 Hf2 Hp2 ltac:(lia))).
    rewrite Hn2.
    apply all_loop_final.
    apply (all_iteration_last_page c f
             {| retries := 0; page := 3; world := w2;
                effects := (([] ++ [Fetch 1]) ++ [Fetch 2])%list |} r3 w3 Hf3).
    right. now exists p3.
Qed.

(** C4: a fetch error that is not an [Error] of code [limit_reached]
    ends the call at once: the driver returns that error with a nil
    response and fetches nothing more; [limit_reached] is the only error
    after which the loop goes on. *)
Theorem all_returns_other_errors c f st resp err w :
  f (page st) (world st) = ((resp, Some err), w) ->
  (forall e, err = APIError e -> Code e <> ErrorCodeLimitReached) ->
  (forall n,
      all_loop (S n) c f st =
        inr {| outcome := Returned None (Some err);
               final_world := w;
               final_effects := (effects st ++ [Fetch (page st)])%list |})
  /\ (forall st1 resp1 err1 w1 st2,
         f (page st1) (world st1) = ((resp1, Some err1), w1) ->
         all_iteration c f st1 = inl st2 ->
         exists e, err1 = APIError e /\ Code e = ErrorCodeLimitReached).
Proof.
  intros Hf Hne. split.
  - intros n. apply all_loop_final. now apply all_iteration_error with (resp := resp).
  - intros st1 resp1 err1 w1 st2 Hf1. unfold all_iteration. rewrite Hf1.
    destruct err1 as [e| | | |]; simpl; try discriminate.
    destruct (String.eqb (Code e) ErrorCodeLimitReached) eqn:E; [|discriminate].
    intros _. exists e. split; [reflexivity|]. now apply String.eqb_eq.
Qed.

End DriverFacts.

Lemma all_retries_limit_reached_witness :
  exists st : Loop (W := nat),
    all 3 (example_client no_network) always_limited 0%nat = inl st
    /\ page st = 1
    /\ retries st = Go.wrap64 3
    /\ effects st = retry_rounds (ConstantBackoff 1000) 1 0 3.
Proof.
  apply (proj2 (all_retries_limit_reached (example_client no_network)
                  always_limited (ConstantBackoff 1000) eq_refl)).
  intros p w.
  exists None, {| Code := ErrorCodeLimitReached; Message := "limit reached" |}, (S w).
  split; reflexivity.
Defined.

Lemma all_follows_next_page_witness :
  all (3 + 0) (example_client no_network) three_pages 0%nat =
    inr {| outcome := Returned (Some (page_response 0)) None;
           final_world := 3%nat;
           final_effects := [Fetch 1; Fetch 2; Fetch 3] |}.
Proof.
  eapply (proj2 (proj2 (proj2 (proj2
            (all_follows_next_page (example_client no_network) three_pages)))));
    reflexivity.
Defined.

Lemma all_returns_other_errors_witness :
  all_loop 1 (example_client no_network) not_found_at_2
    {| retries := 0; page := 2; world := 1%nat; effects := [Fetch 1] |} =
    inr {| outcome :=
             Returned None
               (Some (APIError {| Code := "not_found"; Message := "x" |}));
           final_world := 2%nat;
           final_effects := [Fetch 1; Fetch 2] |}.
Proof.
  refine (proj1 (all_returns_other_errors (example_client no_network)
                   not_found_at_2
                   {| retries := 0; page := 2; world := 1%nat;
                      effects := [Fetch 1] |}
                   None (APIError {| Code := "not_found"; Message := "x" |})
                   2%nat eq_refl _) 0%nat).
  intros e [= <-]. vm_compute. discriminate.
Defined.

(** A limit that is reached once costs one sleep and one more fetch of
    the same page. *)
Example all_limited_once :
  all 2 (example_client no_network) limited_once 0%nat =
    inr {| outcome := Returned (Some (page_response 0)) None;
           final_world := 2%nat;
           final_effects := [Fetch 1; Sleep 1000; Fetch 1] |}.
Proof. reflexivity. Qed.

(** ** Response meta data and errors *)

Lemma readMeta_Resp (r : Response) (body : string) :
  Resp (fst (readMeta r body)) = Resp r.
Proof.
  unfold readMeta.
  destruct (strings.HasPrefix _ _); [|reflexivity].
  destruct (json.Unmarshal _ _ _) as [m [e|]]; reflexivity.
Qed.

Lemma readMeta_not_json (r : Response) (body : string) :
  json_content (http.Header_ (Resp r)) = false ->
  snd (readMeta r body) = None
  /\ Pagination (Meta (fst (readMeta r body))) = Pagination (Meta r).
Proof.
  unfold json_content, readMeta. intros ->. split; reflexivity.
Qed.

Lemma readMeta_json (r : Response) (body : string) :
  json_content (http.Header_ (Resp r)) = true ->
  match json.Unmarshal (json.store_struct m_field) body zero_m with
  | (_, Some e) =>
      snd (readMeta r body) = Some (JSONError e)
      /\ Pagination (Meta (fst (readMeta r body))) = Pagination (Meta r)
  | (m, None) =>
      snd (readMeta r body) = None
      /\ Pagination (Meta (fst (readMeta r body))) =
           Some (m_Pagination (m_Meta m))
  end.
Proof.
  unfold json_content, readMeta. intros ->.
  destruct (json.Unmarshal _ _ _) as [m [e|]]; split; reflexivity.
Qed.

(** The three rate limit fields after [readMeta], each from its own
    header. *)
Lemma readMeta_Ratelimit (r : Response) (body : string) :
  let h := http.Get (http.Header_ (Resp r)) in
  let old := Ratelimit (Meta r) in
  Ratelimit (Meta (fst (readMeta r body))) =
    {| Limit :=
         if String.eqb (h "RateLimit-Limit") "" then Limit old
         else fst (strconv.Atoi (h "RateLimit-Limit"));
       Remaining :=
         if String.eqb (h "RateLimit-Remaining") "" then Remaining old
         else fst (strconv.Atoi (h "RateLimit-Remaining"));
       Reset :=
         if String.eqb (h "RateLimit-Reset") "" then Reset old
         else
           match strconv.ParseInt (h "RateLimit-Reset") with
           | (ts, None) => Unix ts
           | (_, Some _) => Reset old
           end |}.
Proof.
  destruct r as [resp [pg [lim rem rs]]].
  cbv zeta. unfold readMeta, set_Ratelimit, set_Pagination.
  cbn [Resp Meta Ratelimit Pagination Limit Remaining Reset].
  set (hdr := http.Header_ resp).
  destruct (String.eqb (http.Get hdr "RateLimit-Limit") "");
    destruct (String.eqb (http.Get hdr "RateLimit-Remaining") "");
    destruct (String.eqb (http.Get hdr "RateLimit-Reset") "");
    cbn [negb];
    try destruct (strconv.ParseInt (http.Get hdr "RateLimit-Reset"))
      as [ts [e'|]];
    destruct (strings.HasPrefix (http.Get hdr "Content-Type") "application/json");
    try destruct (json.Unmarshal (json.store_struct m_field) body zero_m)
      as [m [e|]];
    reflexivity.
Qed.

(** A header that is no numeral at all leaves the zero value. *)
Lemma ParseInt_syntax_error (s : string) :
  snd (strconv.ParseInt s) = Some strconv.ErrSyntax -> fst (strconv.ParseInt s) = 0.
Proof.
  unfold strconv.ParseInt. destruct s as [|c s]; [reflexivity|].
  destruct (strconv.ParseUint _) as [un [[|]|]]; simpl; try reflexivity;
    destruct (negb _ && _); try discriminate;
    destruct (_ && _); discriminate.
Qed.

(** C6, at a response whose header [RateLimit-Limit] is the numeral
    99999999999999999999: [strconv.Atoi] fails with a range error and
    returns the largest [int], which [readMeta] stores in [Limit]; the
    field is not left at its zero value.  ([readMeta] itself returns no
    error.) *)
Theorem readMeta_Limit_out_of_range :
  let r :=
    {| Resp := {| http.StatusCode := 200;
                  http.Header_ :=
                    {[ "Ratelimit-Limit" := ["99999999999999999999"] ]};
                  http.Body := io.NewReader EmptyString |};
       Meta := zero_Meta |} in
  strconv.Atoi "99999999999999999999"
    = (9223372036854775807, Some strconv.ErrRange)
  /\ snd (readMeta r EmptyString) = None
  /\ Limit (Ratelimit (Meta (fst (readMeta r EmptyString)))) = 9223372036854775807
  /\ Limit (Ratelimit (Meta (fst (readMeta r EmptyString)))) <> 0.
Proof. vm_compute. repeat split; congruence. Qed.

Lemma errorFromResponse_header (resp resp' : http.Response) (body : string) :
  http.Header_ resp = http.Header_ resp' ->
  errorFromResponse resp body = errorFromResponse resp' body.
Proof. unfold errorFromResponse. now intros ->. Qed.

(** [Do] on a response of the server whose body is read without error. *)
Lemma Do_buffered (c : Client) (r : http.Request) (v : Target)
    (resp : http.Response) (body : string) :
  httpClient c r = inl resp ->
  http.Body resp = io.NewReader body ->
  Do c r v =
    match readMeta (buffered resp body) body with
    | (response, Some err) => (Some response, Some (MetaDataError err))
    | (response, None) =>
        let status := http.StatusCode resp in
        if (400 <=? status) && (status <=? 599) then
          (Some response,
           Some match errorFromResponse resp body with
                | Some err => err
                | None => StatusCodeError status
                end)
        else
          (Some response,
           match v with
           | NoTarget => None
           | WriterTarget write => write body
           | ValueTarget unmarshal => unmarshal body
           end)
    end.
Proof.
  intros Hc Hb. unfold Do. rewrite Hc, Hb. cbn [io.ReadAll io.NewReader io.pending io.failure].
  fold (buffered resp body).
  pose proof (readMeta_Resp (buffered resp body) body) as HR.
  destruct (readMeta (buffered resp body) body) as [response [err|]];
    [reflexivity|].
  cbn [fst] in HR. cbv zeta.
  rewrite (errorFromResponse_header (Resp response) resp body)
    by (rewrite HR; reflexivity).
  destruct ((400 <=? http.StatusCode resp) && (http.StatusCode resp <=? 599)).
  - now destruct (errorFromResponse resp body).
  - now destruct v.
Qed.

Lemma buffered_header (resp : http.Response) (body : string) :
  http.Header_ (Resp (buffered resp body)) = http.Header_ resp.
Proof. reflexivity. Qed.

(** C5, as amended: for a response of status 400 to 599, without JSON
    content type the classifier returns no error and [Do] returns the
    generic error of the status code; with JSON content type the
    classifier returns no error when the body does not unmarshal into the
    error envelope, or when it does and code and message are both empty,
    and otherwise the [Error] with the code and the message of the body;
    whenever the meta data are read without error, [Do] returns the error
    of the classifier, or the generic error of the status code when there
    is none. *)
Theorem errorFromResponse_cases (c : Client) (r : http.Request) (v : Target)
    (resp : http.Response) (body : string) :
  400 <= http.StatusCode resp <= 599 ->
  httpClient c r = inl resp ->
  http.Body resp = io.NewReader body ->
  let parsed :=
    json.Unmarshal (json.store_struct apiError_field) body zero_apiError in
  let code := e_Code (e_Error (fst parsed)) in
  let message := e_Message (e_Error (fst parsed)) in
  (json_content (http.Header_ resp) = false ->
   errorFromResponse resp body = None
   /\ exists response,
       Do c r v = (Some response, Some (StatusCodeError (http.StatusCode resp))))
  /\ (json_content (http.Header_ resp) = true ->
      (snd parsed <> None -> errorFromResponse resp body = None)
      /\ (snd parsed = None -> code = "" -> message = "" ->
          errorFromResponse resp body = None)
      /\ (snd parsed = None -> ~ (code = "" /\ message = "") ->
          errorFromResponse resp body =
            Some (APIError {| Code := code; Message := message |})))
  /\ (forall response,
         readMeta (buffered resp body) body = (response, None) ->
         Do c r v =
           (Some response,
            Some match errorFromResponse resp body with
                 | Some err => err
                 | None => StatusCodeError (http.StatusCode resp)
                 end)).
Proof.
  intros Hs Hc Hb parsed code message.
  assert (Hrange : (400 <=? http.StatusCode resp)
                   && (http.StatusCode resp <=? 599) = true).
  { apply andb_true_intro. split; apply Z.leb_le; lia. }
  assert (HDo : forall response,
             readMeta (buffered resp body) body = (response, None) ->
             Do c r v =
               (Some response,
                Some match errorFromResponse resp body with
                     | Some err => err
                     | None => StatusCodeError (http.StatusCode resp)
                     end)).
  { intros response Hm. rewrite (Do_buffered c r v resp body Hc Hb), Hm.
    cbv zeta. now rewrite Hrange. }
  split; [|split; [|exact HDo]].
  - intros Hj.
    assert (He : errorFromResponse resp body = None).
    { unfold errorFromResponse. unfold json_content in Hj. now rewrite Hj. }
    split; [exact He|].
    destruct (readMeta_not_json (buffered resp body) body) as [Hn _].
    { now rewrite buffered_header. }
    destruct (readMeta (buffered resp body) body) as [response e] eqn:Hm.
    cbn [snd] in Hn. subst e. exists response.
    rewrite (HDo response eq_refl). now rewrite He.
  - intros Hj. unfold errorFromResponse. unfold json_content in Hj. rewrite Hj.
    cbn [negb]. subst code message parsed.
    destruct (json.Unmarshal (json.store_struct apiError_field) body zero_apiError)
      as [a [e|]]; cbn [fst snd].
    + split; [intros _; reflexivity|]. split; intros; discriminate.
    + split; [intros H; now destruct H|]. split.
      * intros _ -> ->. reflexivity.
      * intros _ Hne.
        destruct (String.eqb (e_Code (e_Error a)) "") eqn:E1;
          destruct (String.eqb (e_Message (e_Error a)) "") eqn:E2;
          try reflexivity.
        apply String.eqb_eq in E1, E2. now destruct Hne.
Qed.

Lemma errorFromResponse_cases_witness :
  let body := quoted "{'error':{'code':'not_found','message':'x'}}" in
  errorFromResponse (json_response 404 body) body
    = Some (APIError {| Code := "not_found"; Message := "x" |}).
Proof.
  intros body.
  refine (proj2 (proj2 (proj1 (proj2
            (errorFromResponse_cases
               (example_client (serves (json_response 404 body)))
               example_request NoTarget (json_response 404 body) body
               _ eq_refl eq_refl)) eq_refl)) eq_refl _).
  - vm_compute. split; discriminate.
  - vm_compute. intros [H _]. discriminate.
Defined.

(** C5 as the specification words it fails on a JSON body whose
    [error.code] is a string and whose [error.message] is a number: the
    code is ["x"] after parsing, [json.Unmarshal] returns an error, and
    the classifier returns no error instead of an [Error] of code ["x"]. *)
Lemma errorFromResponse_counterexample :
  let body := quoted "{'error':{'code':'x','message':5}}" in
  ~ classifier_as_specified (json_response 500 body) body.
Proof. vm_compute. discriminate. Qed.

(** A 404 with the error envelope of the API gives the typed error, a
    404 without JSON content type the generic one. *)
Example Do_not_found :
  let body := quoted "{'error':{'code':'not_found','message':'x'}}" in
  snd (Do (example_client (serves (json_response 404 body))) example_request
         NoTarget)
    = Some (APIError {| Code := "not_found"; Message := "x" |})
  /\ snd (Do (example_client
                (serves {| http.StatusCode := 404; http.Header_ := ∅;
                           http.Body := io.NewReader "not found" |}))
            example_request NoTarget)
     = Some (StatusCodeError 404).
Proof. vm_compute. split; reflexivity. Qed.

Lemma save_None (saved : option json.error) : json.save saved None = saved.
Proof. now destruct saved. Qed.

Lemma store_members_no_pagination (ms : list (string * json.value))
    (t : readMeta_m_Meta) (saved : option json.error) :
  no_member "pagination" ms = true ->
  json.store_members m_Meta_field ms t saved = json.Cont t saved.
Proof.
  revert t saved. induction ms as [|[k x] ms IH]; intros t saved H.
  - reflexivity.
  - unfold no_member in H. cbn [forallb fst] in H.
    apply andb_prop in H as [Hk Hms].
    cbn [json.store_members]. unfold m_Meta_field at 1.
    destruct (json.find_field ["pagination"] k); [discriminate|].
    rewrite save_None. now apply IH.
Qed.

Lemma store_members_without_pagination (ms : list (string * json.value))
    (t : readMeta_m) (saved : option json.error) :
  envelope_without_pagination (json.Object ms) = true ->
  json.store_members m_field ms t saved = json.Cont t saved.
Proof.
  revert t saved. induction ms as [|[k x] ms IH]; intros t saved H.
  - reflexivity.
  - cbn [envelope_without_pagination forallb fst snd] in H.
    apply andb_prop in H as [Hk Hms].
    cbn [json.store_members]. unfold m_field at 1.
    destruct (json.find_field ["meta"] k).
    + destruct t as [mm].
      destruct x as [| | | | |ms']; try discriminate;
        cbn [json.store_struct json.with_field m_Meta].
      * rewrite save_None. now apply IH.
      * rewrite (store_members_no_pagination ms' mm None Hk).
        cbn [json.with_field]. rewrite save_None. now apply IH.
    + rewrite save_None. now apply IH.
Qed.

Lemma Unmarshal_without_pagination (body : string) (x : json.value) :
  json.parse body = Some x ->
  envelope_without_pagination x = true ->
  json.Unmarshal (json.store_struct m_field) body zero_m = (zero_m, None).
Proof.
  intros Hp Hx. unfold json.Unmarshal. rewrite Hp.
  destruct x as [| | | | |ms]; try discriminate.
  - reflexivity.
  - cbn [json.store_struct].
    now rewrite (store_members_without_pagination ms zero_m None Hx).
Qed.

(** C7, as amended: [readMeta] parses the pagination if and only if the
    content type is JSON; without, the pagination stays nil and there is
    no error.  With a JSON content type the pagination is set exactly when
    [readMeta] returns no error; a body that is an envelope without
    pagination (null, or an object whose [meta] members are null or
    objects without [pagination] member) gives a pagination that is
    present with every field zero; a valid JSON body that is neither an
    object nor null makes [readMeta] fail and leaves the pagination nil. *)
Theorem readMeta_Pagination (r : Response) (body : string) :
  Pagination (Meta r) = None ->
  let r' := fst (readMeta r body) in
  let err := snd (readMeta r body) in
  (json_content (http.Header_ (Resp r)) = false ->
   err = None /\ Pagination (Meta r') = None)
  /\ (Pagination (Meta r') <> None -> json_content (http.Header_ (Resp r)) = true)
  /\ (json_content (http.Header_ (Resp r)) = true ->
      (err = None <-> Pagination (Meta r') <> None)
      /\ (forall x,
             json.parse body = Some x ->
             envelope_without_pagination x = true ->
             err = None /\ Pagination (Meta r') = Some zero_Pagination)
      /\ (forall x,
             json.parse body = Some x ->
             x <> json.Null -> (forall ms, x <> json.Object ms) ->
             err = Some (JSONError json.UnmarshalTypeError)
             /\ Pagination (Meta r') = None)).
Proof.
  intros H0 r' err. subst r' err.
  assert (H1 : json_content (http.Header_ (Resp r)) = false ->
               snd (readMeta r body) = None
               /\ Pagination (Meta (fst (readMeta r body))) = None).
  { intros Hj. destruct (readMeta_not_json r body Hj) as [He Hp].
    split; congruence. }
  split; [exact H1|]. split.
  - intros Hp. destruct (json_content (http.Header_ (Resp r))); [reflexivity|].
    destruct (H1 eq_refl) as [_ Hn]. contradiction.
  - intros Hj. pose proof (readMeta_json r body Hj) as HJ.
    split; [|split].
    + destruct (json.Unmarshal (json.store_struct m_field) body zero_m)
        as [m [e|]]; destruct HJ as [He Hp]; rewrite He, Hp.
      * rewrite H0. split; [discriminate | congruence].
      * split; [discriminate | reflexivity].
    + intros x Hx Hw.
      rewrite (Unmarshal_without_pagination body x Hx Hw) in HJ. exact HJ.
    + intros x Hx Hnull Hobj. unfold json.Unmarshal in HJ. rewrite Hx in HJ.
      destruct x as [| | | | |ms]; cbn [json.store_struct] in HJ;
        try (destruct HJ as [He Hp]; split; congruence).
      now destruct (Hobj ms).
Qed.

Lemma readMeta_Pagination_witness :
  let r := {| Resp := json_response 200 EmptyString; Meta := zero_Meta |} in
  snd (readMeta r (quoted "{'servers':[],'meta':{}}")) = None
  /\ Pagination (Meta (fst (readMeta r (quoted "{'servers':[],'meta':{}}"))))
     = Some zero_Pagination.
Proof.
  intros r.
  refine (proj1 (proj2 (proj2 (proj2
            (readMeta_Pagination r (quoted "{'servers':[],'meta':{}}") eq_refl))
            eq_refl))
            (json.Object [("servers", json.Array []); ("meta", json.Object [])])
            _ _); vm_compute; reflexivity.
Defined.

(** C7 as the specification words it fails on the body [[]]: it is
    valid JSON without [meta.pagination], but it is no object, so
    [json.Unmarshal] fails and the pagination stays nil. *)
Lemma readMeta_Pagination_counterexample :
  ~ pagination_as_specified
      {| Resp := json_response 200 "[]"; Meta := zero_Meta |} "[]".
Proof.
  unfold pagination_as_specified.
  change (json_content _) with true. cbv iota.
  intros H. specialize (H (json.Array []) eq_refl eq_refl).
  vm_compute in H. discriminate.
Qed.

(** C8: once [Do] has buffered the body of a response, [ReadBody] yields
    these bytes, without error, every time, and leaves the body readable. *)
Theorem ReadBody_twice (c : Client) (r : http.Request) (v : Target)
    (resp : http.Response) :
  httpClient c r = inl resp ->
  io.failure (http.Body resp) = None ->
  let body := io.pending (http.Body resp) in
  exists response err,
    Do c r v = (Some response, err)
    /\ exists response1 response2,
        ReadBody response = ((Some body, None), response1)
        /\ ReadBody response1 = ((Some body, None), response2)
        /\ http.Body (Resp response1) = io.NewReader body
        /\ http.Body (Resp response2) = io.NewReader body.
Proof.
  intros Hc Hf body.
  assert (Hb : http.Body resp = io.NewReader body).
  { subst body. destruct (http.Body resp) as [p fl]. cbn in *. now subst fl. }
  assert (HR : forall response : Response,
             http.Body (Resp response) = io.NewReader body ->
             exists response1 response2,
               ReadBody response = ((Some body, None), response1)
               /\ ReadBody response1 = ((Some body, None), response2)
               /\ http.Body (Resp response1) = io.NewReader body
               /\ http.Body (Resp response2) = io.NewReader body).
  { intros response Hrb.
    exists (set_Body response (io.NewReader body)),
           (set_Body (set_Body response (io.NewReader body)) (io.NewReader body)).
    unfold ReadBody. rewrite Hrb. cbn. repeat split. }
  rewrite (Do_buffered c r v resp body Hc Hb).
  pose proof (readMeta_Resp (buffered resp body) body) as HResp.
  destruct (readMeta (buffered resp body) body) as [response [e|]];
    cbn [fst] in HResp.
  - exists response, (Some (MetaDataError e)). split; [reflexivity|].
    apply HR. now rewrite HResp.
  - cbv zeta.
    destruct ((400 <=? http.StatusCode resp) && (http.StatusCode resp <=? 599));
      eexists response, _; (split; [reflexivity|]); apply HR; now rewrite HResp.
Qed.

Lemma ReadBody_twice_witness :
  exists response err,
    Do (example_client (serves (json_response 200 "{}"))) example_request NoTarget
      = (Some response, err)
    /\ exists response1 response2,
        ReadBody response = ((Some "{}", None), response1)
        /\ ReadBody response1 = ((Some "{}", None), response2)
        /\ http.Body (Resp response1) = io.NewReader "{}"
        /\ http.Body (Resp response2) = io.NewReader "{}".
Proof.
  exact (ReadBody_twice (example_client (serves (json_response 200 "{}")))
           example_request NoTarget (json_response 200 "{}") eq_refl eq_refl).
Defined.

(** C9: when the content type is JSON and the body is no valid JSON,
    [Do] returns the error of reading the meta data, whatever the status
    code: for a status of 400 to 599 the caller gets neither the error of
    the classifier nor the generic error of the status code. *)
Theorem Do_invalid_json (c : Client) (r : http.Request) (v : Target)
    (resp : http.Response) (body : string) :
  httpClient c r = inl resp ->
  http.Body resp = io.NewReader body ->
  json_content (http.Header_ resp) = true ->
  json.parse body = None ->
  exists response,
    Do c r v = (Some response, Some (MetaDataError (JSONError json.SyntaxError)))
    /\ Pagination (Meta response) = None
    /\ (forall e, snd (Do c r v) <> Some (APIError e))
    /\ snd (Do c r v) <> Some (StatusCodeError (http.StatusCode resp)).
Proof.
  intros Hc Hb Hj Hp.
  rewrite (Do_buffered c r v resp body Hc Hb).
  pose proof (readMeta_json (buffered resp body) body) as HJ.
  rewrite buffered_header in HJ. specialize (HJ Hj).
  unfold json.Unmarshal in HJ. rewrite Hp in HJ. destruct HJ as [He Hn].
  destruct (readMeta (buffered resp body) body) as [response e].
  cbn [fst snd] in He, Hn. subst e. exists response.
  repeat split; try discriminate. exact Hn.
Qed.

Lemma Do_invalid_json_witness :
  exists response,
    Do (example_client (serves (json_response 500 "<html>")))
       example_request NoTarget
      = (Some response, Some (MetaDataError (JSONError json.SyntaxError)))
    /\ Pagination (Meta response) = None
    /\ (forall e,
           snd (Do (example_client (serves (json_response 500 "<html>")))
                  example_request NoTarget) <> Some (APIError e))
    /\ snd (Do (example_client (serves (json_response 500 "<html>")))
              example_request NoTarget) <> Some (StatusCodeError 500).
Proof.
  exact (Do_invalid_json (example_client (serves (json_response 500 "<html>")))
           example_request NoTarget (json_response 500 "<html>") "<html>"
           eq_refl eq_refl eq_refl eq_refl).
Defined.

(** ** Endpoint and requests *)

Lemma contains_slash (c : ascii) :
  strings.contains_byte "/" c = true -> c = "/"%char.
Proof.
  cbn [strings.contains_byte].
  destruct (Ascii.eqb "/" c) eqn:E; [|discriminate].
  intros _. symmetry. now apply Ascii.eqb_eq.
Qed.

Lemma TrimRight_slashes (s : string) :
  exists k, s = strings.TrimRight s "/" ++ slashes k.
Proof.
  induction s as [|c r [k IH]].
  - now exists 0%nat.
  - cbn [strings.TrimRight].
    destruct (strings.TrimRight r "/") as [|a t] eqn:E.
    + destruct (strings.contains_byte "/" c) eqn:Ec.
      * exists (S k). apply contains_slash in Ec. subst c.
        cbn. now rewrite IH at 1.
      * exists k. cbn. now rewrite IH at 1.
    + exists k. cbn. now rewrite IH at 1.
Qed.

Lemma TrimRight_last_byte (s : string) :
  last_byte (strings.TrimRight s "/") <> Some "/"%char.
Proof.
  induction s as [|c r IH].
  - discriminate.
  - cbn [strings.TrimRight].
    destruct (strings.TrimRight r "/") as [|a t] eqn:E.
    + destruct (strings.contains_byte "/" c) eqn:Ec; [discriminate|].
      cbn. intros [= ->]. discriminate.
    + exact IH.
Qed.

Lemma TrimRight_app_slash (s : string) :
  strings.TrimRight (s ++ "/") "/" = strings.TrimRight s "/".
Proof.
  induction s as [|c r IH].
  - reflexivity.
  - change (String c r ++ "/")%string with (String c (r ++ "/")%string).
    cbn [strings.TrimRight]. now rewrite IH.
Qed.

Section RequestFacts.
Context {L : GoLib}.

Lemma NewRequest_URL (c : Client) (ctx : http.Context) (method path : string)
    (body : option io.Reader) :
  match http_NewRequest_error method (endpoint c ++ path) with
  | Some err => NewRequest c ctx method path body = (None, Some err)
  | None =>
      exists req,
        NewRequest c ctx method path body = (Some req, None)
        /\ http.URL req = endpoint c ++ path
  end.
Proof.
  unfold NewRequest, http_NewRequest.
  destruct (http_NewRequest_error method (endpoint c ++ path)); [reflexivity|].
  eexists. split; [reflexivity|]. now destruct body.
Qed.

(** C10: [WithEndpoint(e)] stores [e] without its trailing slashes, the
    URL of every request that [NewRequest] builds is the stored endpoint
    followed by the path, and so the endpoints [e] and [e/], such as
    [https://host/v1] and [https://host/v1/], give the same requests. *)
Theorem WithEndpoint_NewRequest (e : string) (c : Client) :
  let c' := WithEndpoint e c in
  endpoint c' = strings.TrimRight e "/"
  /\ (forall net, endpoint (NewClient net [WithEndpoint e]) = endpoint c')
  /\ (exists k, e = endpoint c' ++ slashes k)
  /\ last_byte (endpoint c') <> Some "/"%char
  /\ (forall ctx method path body req err,
         NewRequest c' ctx method path body = (Some req, err) ->
         http.URL req = endpoint c' ++ path)
  /\ (forall ctx method path body,
         http_NewRequest_error method (endpoint c' ++ path) = None ->
         exists req,
           NewRequest c' ctx method path body = (Some req, None)
           /\ http.URL req = endpoint c' ++ path)
  /\ (forall ctx method path body,
         NewRequest (WithEndpoint (e ++ "/") c) ctx method path body
         = NewRequest c' ctx method path body)
  /\ (forall ctx method path body,
         NewRequest (WithEndpoint "https://host/v1/" c) ctx method path body
         = NewRequest (WithEndpoint "https://host/v1" c) ctx method path body).
Proof.
  cbv zeta. split; [reflexivity|]. split; [reflexivity|].
  split; [apply TrimRight_slashes|].
  split; [apply TrimRight_last_byte|].
  split; [|split; [|split]].
  - intros ctx method path body req err H.
    pose proof (NewRequest_URL (WithEndpoint e c) ctx method path body) as HU.
    destruct (http_NewRequest_error method (endpoint (WithEndpoint e c) ++ path)).
    + rewrite HU in H. discriminate.
    + destruct HU as (req' & Hr & Hu). rewrite Hr in H. now injection H as <- _.
  - intros ctx method path body H.
    pose proof (NewRequest_URL (WithEndpoint e c) ctx method path body) as HU.
    now rewrite H in HU.
  - intros ctx method path body. unfold NewRequest, WithEndpoint.
    cbn [endpoint token]. now rewrite TrimRight_app_slash.
  - reflexivity.
Qed.

End RequestFacts.

Example NewRequest_trailing_slash :
  let c := example_client no_network in
  fst (@NewRequest reference_lib (WithEndpoint "https://host/v1/" c)
         http.Background "GET" "/servers" None)
  = Some {| http.Method := "GET";
            http.URL := "https://host/v1/servers";
            http.ReqHeader :=
              http.Set_ (http.Set_ ∅ "User-Agent" "hcloud-go/1.0.0")
                "Authorization" "Bearer token";
            http.ReqBody := None;
            http.ReqContext := http.Background |}.
Proof. reflexivity. Qed.

(** ** Decimal numerals *)

Lemma code_byte_of (n : Z) : 0 <= n < 256 -> Go.code (Go.byte_of n) = n.
Proof.
  intros H. unfold Go.code, Go.byte_of.
  rewrite N_ascii_embedding by lia. lia.
Qed.

Lemma is_digit_byte_of (d : Z) : 0 <= d < 10 -> Go.is_digit (Go.byte_of (48 + d)) = true.
Proof.
  intros H. unfold Go.is_digit. rewrite code_byte_of by lia.
  apply andb_true_intro. split; apply Z.leb_le; lia.
Qed.

Lemma is_digit_code (c : ascii) : Go.is_digit c = true -> 0 <= Go.code c - 48 < 10.
Proof.
  unfold Go.is_digit. intros H. apply andb_prop in H as [H1 H2].
  apply Z.leb_le in H1, H2. lia.
Qed.

Lemma decimal_value_ge (s : string) (m : Z) :
  all_digits s = true -> 0 <= m -> m <= decimal_value s m.
Proof.
  revert m. induction s as [|c r IH]; intros m Hd Hm; cbn in *; [lia|].
  apply andb_prop in Hd as [Hc Hr]. apply is_digit_code in Hc.
  specialize (IH (m * 10 + (Go.code c - 48)) Hr). lia.
Qed.

(** The digit loop of [ParseUint] reads a string of digits to its
    value when that fits 64 bits. *)
Lemma ParseUint_loop_value (s : string) (m : Z) :
  all_digits s = true -> 0 <= m ->
  decimal_value s m <= strconv.maxUint64 ->
  strconv.ParseUint_loop s m = (decimal_value s m, None).
Proof.
  revert m. induction s as [|c r IH]; intros m Hd Hm Hv; [reflexivity|].
  cbn [all_digits] in Hd. apply andb_prop in Hd as [Hc Hr].
  cbn [strconv.ParseUint_loop decimal_value] in *. rewrite Hc.
  pose proof (is_digit_code c Hc) as Hcd.
  pose proof (decimal_value_ge r (m * 10 + (Go.code c - 48)) Hr ltac:(lia)) as Hge.
  unfold strconv.maxUint64 in *.
  destruct (_ <=? m) eqn:E1.
  { apply Z.leb_le in E1.
    change (2 ^ 64 - 1) with 18446744073709551615 in *.
    change (18446744073709551615 / 10 + 1) with 1844674407370955162 in E1.
    lia. }
  destruct (_ <? _) eqn:E2; [apply Z.ltb_lt in E2; lia|].
  apply IH; [assumption | lia | assumption].
Qed.

Lemma format_uint_digits (fuel : nat) (u : Z) (acc : string) :
  0 <= u -> all_digits acc = true ->
  all_digits (strconv.format_uint fuel u acc) = true.
Proof.
  revert u acc. induction fuel as [|fuel IH]; intros u acc Hu Ha; [exact Ha|].
  cbn [strconv.format_uint].
  assert (Hd : all_digits (String (Go.byte_of (48 + u mod 10)) acc) = true).
  { cbn [all_digits]. rewrite is_digit_byte_of, Ha; [reflexivity|].
    apply Z.mod_pos_bound. lia. }
  destruct (u <? 10); [exact Hd|].
  apply IH; [apply Z.div_pos; lia | exact Hd].
Qed.

Lemma format_uint_value (fuel : nat) (u : Z) (acc : string) :
  0 <= u < 10 ^ Z.of_nat fuel ->
  decimal_value (strconv.format_uint fuel u acc) 0 = decimal_value acc u.
Proof.
  revert u acc. induction fuel as [|fuel IH]; intros u acc Hu.
  - cbn in Hu. assert (u = 0) by lia. now subst u.
  - cbn [strconv.format_uint].
    assert (Hm : 0 <= u mod 10 < 10) by (apply Z.mod_pos_bound; lia).
    destruct (u <? 10) eqn:E.
    + apply Z.ltb_lt in E. cbn [decimal_value].
      rewrite code_byte_of by lia. rewrite Z.mod_small by lia. f_equal. lia.
    + apply Z.ltb_ge in E. rewrite IH.
      * cbn [decimal_value]. rewrite code_byte_of by lia. f_equal.
        pose proof (Z.div_mod u 10 ltac:(lia)). lia.
      * rewrite Nat2Z.inj_succ, Z.pow_succ_r in Hu by lia.
        split; [apply Z.div_pos; lia|].
        apply Z.div_lt_upper_bound; lia.
Qed.

Lemma format_uint_cons (fuel : nat) (u : Z) (acc : string) :
  exists c r, strconv.format_uint (S fuel) u acc = String c r.
Proof.
  revert u acc. induction fuel as [|fuel IH]; intros u acc.
  - cbn. destruct (u <? 10); eauto.
  - change (strconv.format_uint (S (S fuel)) u acc)
      with (let acc' := String (Go.byte_of (48 + u mod 10)) acc in
            if u <? 10 then acc' else strconv.format_uint (S fuel) (u / 10) acc').
    cbv zeta. destruct (u <? 10); eauto.
Qed.

Lemma ParseUint_format_uint (u : Z) :
  0 <= u <= strconv.maxUint64 ->
  strconv.ParseUint (strconv.format_uint 20 u "") = (u, None).
Proof.
  intros Hu. unfold strconv.maxUint64 in Hu.
  destruct (format_uint_cons 19 u "") as (c & r & E).
  unfold strconv.ParseUint. rewrite E, <- E.
  assert (Hv : decimal_value (strconv.format_uint 20 u "") 0 = u).
  { rewrite format_uint_value; [reflexivity|]. change (Z.of_nat 20) with 20. lia. }
  rewrite ParseUint_loop_value; rewrite ?Hv; try reflexivity.
  - apply format_uint_digits; [lia | reflexivity].
  - unfold strconv.maxUint64. lia.
Qed.

Lemma all_digits_head (c : ascii) (r : string) :
  all_digits (String c r) = true ->
  Ascii.eqb c "-" = false /\ Ascii.eqb c "+" = false.
Proof.
  cbn [all_digits]. intros H. apply andb_prop in H as [H _].
  apply is_digit_code in H.
  split; apply Ascii.eqb_neq; intros ->; unfold Go.code in H; simpl in H; lia.
Qed.

(** [Atoi] reads back what [Itoa] writes. *)
Lemma Atoi_Itoa (n : Z) :
  Go.in_int64 n -> strconv.Atoi (strconv.Itoa n) = (n, None).
Proof.
  unfold Go.in_int64, Go.int64_min, Go.int64_max. intros Hn.
  unfold strconv.Atoi, strconv.Itoa.
  destruct (n <? 0) eqn:En.
  - apply Z.ltb_lt in En. unfold strconv.ParseInt.
    change (Ascii.eqb "-" "-") with true. change (Ascii.eqb "-" "+") with false.
    cbn [orb]. rewrite ParseUint_format_uint by (unfold strconv.maxUint64; lia).
    cbn [negb andb].
    destruct (2 ^ 63 <? - n) eqn:E; [apply Z.ltb_lt in E; lia|].
    f_equal. lia.
  - apply Z.ltb_ge in En.
    pose proof (ParseUint_format_uint n ltac:(unfold strconv.maxUint64; lia)) as HP.
    pose proof (format_uint_digits 20 n "" En eq_refl) as Hd.
    destruct (format_uint_cons 19 n "") as (c & r & E).
    rewrite E in *. destruct (all_digits_head c r Hd) as [H1 H2].
    unfold strconv.ParseInt. rewrite H1, H2. cbn [orb]. rewrite HP.
    cbn [negb andb].
    destruct (2 ^ 63 <=? n) eqn:E3; [apply Z.leb_le in E3; lia|].
    reflexivity.
Qed.

Lemma Itoa_nonempty (n : Z) : String.eqb (strconv.Itoa n) "" = false.
Proof.
  unfold strconv.Itoa. destruct (n <? 0); [reflexivity|].
  destruct (format_uint_cons 19 n "") as (c & r & E). now rewrite E.
Qed.

(** ** List options *)

(** X1: the query values of [valuesForListOpts] have the key [page]
    exactly when the page is positive and the key [per_page] exactly when
    the page size is positive, each with the one decimal numeral of the
    field, which [strconv.Atoi] reads back to the field; there is no other
    key. *)
Theorem valuesForListOpts_round_trip (opts : ListOpts) :
  Go.in_int64 (opts_Page opts) ->
  Go.in_int64 (opts_PerPage opts) ->
  let vals := valuesForListOpts opts in
  (vals !! "page" =
     if 0 <? opts_Page opts then Some [strconv.Itoa (opts_Page opts)] else None)
  /\ (vals !! "per_page" =
        if 0 <? opts_PerPage opts
        then Some [strconv.Itoa (opts_PerPage opts)] else None)
  /\ (forall k, k <> "page" -> k <> "per_page" -> vals !! k = None)
  /\ (forall s, vals !! "page" = Some [s] ->
                strconv.Atoi s = (opts_Page opts, None))
  /\ (forall s, vals !! "per_page" = Some [s] ->
                strconv.Atoi s = (opts_PerPage opts, None)).
Proof.
  intros Hp Hq vals.
  assert (H1 : vals !! "page" =
               if 0 <? opts_Page opts
               then Some [strconv.Itoa (opts_Page opts)] else None).
  { subst vals. unfold valuesForListOpts, url.Add.
    destruct (0 <? opts_Page opts), (0 <? opts_PerPage opts);
      repeat (rewrite ?lookup_insert_eq, ?lookup_empty;
              try rewrite lookup_insert_ne by discriminate);
      reflexivity. }
  assert (H2 : vals !! "per_page" =
               if 0 <? opts_PerPage opts
               then Some [strconv.Itoa (opts_PerPage opts)] else None).
  { subst vals. unfold valuesForListOpts, url.Add.
    destruct (0 <? opts_Page opts), (0 <? opts_PerPage opts);
      repeat (rewrite ?lookup_insert_eq, ?lookup_empty;
              try rewrite lookup_insert_ne by discriminate);
      reflexivity. }
  split; [exact H1|]. split; [exact H2|]. split; [|split].
  - intros k Hk1 Hk2. subst vals. unfold valuesForListOpts, url.Add.
    destruct (0 <? opts_Page opts), (0 <? opts_PerPage opts);
      repeat (try rewrite lookup_insert_ne by congruence);
      apply lookup_empty.
  - intros s Hs. rewrite H1 in Hs.
    destruct (0 <? opts_Page opts); [|discriminate].
    injection Hs as <-. now apply Atoi_Itoa.
  - intros s Hs. rewrite H2 in Hs.
    destruct (0 <? opts_PerPage opts); [|discriminate].
    injection Hs as <-. now apply Atoi_Itoa.
Qed.

Lemma valuesForListOpts_round_trip_witness :
  valuesForListOpts {| opts_Page := 2; opts_PerPage := 50 |} !! "page"
  = Some ["2"].
Proof.
  refine (proj1 (valuesForListOpts_round_trip
                   {| opts_Page := 2; opts_PerPage := 50 |} _ _));
    unfold Go.in_int64, Go.int64_min, Go.int64_max; cbn; lia.
Defined.

(** ** More on the response meta data *)

(** X2: a rate limit header that holds the decimal numeral of an
    [int64] is read to that number: into [Limit], into [Remaining], and as
    the Unix time of [Reset], whatever the body and the content type. *)
Theorem readMeta_reads_numerals (r : Response) (body : string) (n : Z) :
  Go.in_int64 n ->
  let h := http.Get (http.Header_ (Resp r)) in
  let rl := Ratelimit (Meta (fst (readMeta r body))) in
  (h "RateLimit-Limit" = strconv.Itoa n -> Limit rl = n)
  /\ (h "RateLimit-Remaining" = strconv.Itoa n -> Remaining rl = n)
  /\ (h "RateLimit-Reset" = strconv.Itoa n -> Reset rl = Unix n).
Proof.
  intros Hn h rl. subst h rl. rewrite readMeta_Ratelimit. cbv zeta.
  cbn [Limit Remaining Reset].
  pose proof (Atoi_Itoa n Hn) as HA. unfold strconv.Atoi in *.
  repeat split; intros ->; rewrite Itoa_nonempty, HA; reflexivity.
Qed.

Lemma readMeta_reads_numerals_witness :
  let r :=
    {| Resp := {| http.StatusCode := 200;
                  http.Header_ := {[ "Ratelimit-Limit" := ["3600"] ]};
                  http.Body := io.NewReader EmptyString |};
       Meta := zero_Meta |} in
  Limit (Ratelimit (Meta (fst (readMeta r EmptyString)))) = 3600.
Proof.
  intros r.
  refine (proj1 (readMeta_reads_numerals r EmptyString 3600 _) eq_refl).
  unfold Go.in_int64, Go.int64_min, Go.int64_max. lia.
Defined.

Lemma Response_ext (a b : Response) :
  Resp a = Resp b ->
  Pagination (Meta a) = Pagination (Meta b) ->
  Ratelimit (Meta a) = Ratelimit (Meta b) ->
  a = b.
Proof.
  destruct a as [ra [pa la]], b as [rb [pb lb]]. cbn. now intros -> -> ->.
Qed.

Lemma readMeta_error_Pagination (r : Response) (body : string) :
  (snd (readMeta r body),
   Pagination (Meta (fst (readMeta r body)))) =
  if json_content (http.Header_ (Resp r)) then
    match json.Unmarshal (json.store_struct m_field) body zero_m with
    | (_, Some e) => (Some (JSONError e), Pagination (Meta r))
    | (m, None) => (None, Some (m_Pagination (m_Meta m)))
    end
  else (None, Pagination (Meta r)).
Proof.
  destruct (json_content (http.Header_ (Resp r))) eqn:Hj.
  - pose proof (readMeta_json r body Hj) as HJ.
    destruct (json.Unmarshal (json.store_struct m_field) body zero_m)
      as [m [e|]]; destruct HJ as [-> ->]; reflexivity.
  - destruct (readMeta_not_json r body Hj) as [-> ->]. reflexivity.
Qed.

(** X3: [readMeta] is idempotent: reading the meta data of the same
    body again changes neither the response nor the error. *)
Theorem readMeta_idempotent (r : Response) (body : string) :
  readMeta (fst (readMeta r body)) body = readMeta r body.
Proof.
  set (r1 := fst (readMeta r body)).
  assert (HR : Resp r1 = Resp r) by apply readMeta_Resp.
  pose proof (readMeta_error_Pagination r body) as H1.
  pose proof (readMeta_error_Pagination r1 body) as H2.
  fold r1 in H1. rewrite HR in H2.
  assert (HP : snd (readMeta r1 body) = snd (readMeta r body)
               /\ Pagination (Meta (fst (readMeta r1 body)))
                  = Pagination (Meta r1)).
  { destruct (json_content (http.Header_ (Resp r)));
      [destruct (json.Unmarshal (json.store_struct m_field) body zero_m)
         as [m [e|]]|];
      injection H1 as H1a H1b; injection H2 as H2a H2b;
      split; congruence. }
  destruct HP as [HPe HPp].
  assert (HL : Ratelimit (Meta (fst (readMeta r1 body))) = Ratelimit (Meta r1)).
  { rewrite (readMeta_Ratelimit r1 body). cbv zeta. rewrite HR.
    unfold r1. rewrite (readMeta_Ratelimit r body). cbv zeta.
    cbn [Limit Remaining Reset].
    destruct (String.eqb _ "");
      destruct (String.eqb _ "");
      destruct (String.eqb _ ""); try reflexivity;
      destruct (strconv.ParseInt _) as [ts [e|]]; reflexivity. }
  rewrite (surjective_pairing (readMeta r1 body)).
  rewrite (surjective_pairing (readMeta r body)). fold r1.
  f_equal; [|exact HPe].
  apply Response_ext; [apply readMeta_Resp | exact HPp | exact HL].
Qed.

(** X4: [UnmarshalJSON] assigns every field or none: without error
    the result does not depend on the pagination it is called on (members
    that are absent become zero); with an error the pagination is left
    as it is. *)
Theorem UnmarshalJSON_overwrites (x : json.value)
    (p p' : ResponseMetaPagination) :
  (snd (UnmarshalJSON x p) = None -> UnmarshalJSON x p' = UnmarshalJSON x p)
  /\ (snd (UnmarshalJSON x p) <> None ->
      fst (UnmarshalJSON x p) = p
      /\ UnmarshalJSON x p' = (p', snd (UnmarshalJSON x p))).
Proof.
  unfold UnmarshalJSON.
  destruct (json.store_struct pagination_field x zero_Pagination)
    as [v [e|]|v e]; cbn [fst snd]; split; intros H;
    try discriminate; try reflexivity; try (now destruct H); auto.
Qed.

(** ** More on the pagination driver *)

Lemma retry_rounds_S (backoff : BackoffFunc) (p r0 : Z) (n : nat) :
  Go.wrap64 r0 = r0 ->
  retry_rounds backoff p r0 (S n) =
    ([Fetch p; Sleep (backoff r0)]
     ++ retry_rounds backoff p (Go.wrap64 (r0 + 1)) n)%list.
Proof.
  intros Hr. unfold retry_rounds. cbn [seq flat_map].
  rewrite Z.add_0_r, Hr. cbn [app]. do 2 f_equal.
  rewrite flat_map_seq_S. apply flat_map_ext. intros k.
  rewrite wrap64_add_l.
  replace (r0 + 1 + Z.of_nat k) with (r0 + Z.of_nat (S k)) by lia.
  reflexivity.
Qed.

Section MoreDriverFacts.
Context {W : Type}.
Implicit Types (c : Client) (f : PageFetcher (W := W)) (st : Loop (W := W)).

(** More iterations do not change the end of a call. *)
Lemma all_loop_stable (n m : nat) c f st fin :
  all_loop n c f st = inr fin -> all_loop (n + m) c f st = inr fin.
Proof.
  revert st. induction n as [|n IH]; intros st; [discriminate|].
  cbn [all_loop Nat.add].
  destruct (all_iteration c f st) as [st'|fin']; [apply IH | trivial].
Qed.

Lemma all_iteration_end c f st fin :
  all_iteration c f st = inr fin ->
  final_effects fin = (effects st ++ [Fetch (page st)])%list
  /\ forall resp err,
       outcome fin = Returned resp err -> (resp = None <-> err <> None).
Proof.
  unfold all_iteration.
  destruct (f (page st) (world st)) as [[resp err] w].
  destruct err as [err|].
  - destruct (as_Error err) as [e|];
      [destruct (String.eqb (Code e) ErrorCodeLimitReached);
       [destruct (backoffFunc c); [discriminate|]|]|];
      intros [= <-]; cbn; (split; [reflexivity|]);
      intros resp' err' [= <- <-] || intros resp' err' [=];
      split; congruence.
  - destruct resp as [r|].
    + destruct (Pagination (Meta r)) as [p|];
        [destruct (NextPage p =? 0); [|discriminate]|];
        intros [= <-]; cbn; (split; [reflexivity|]);
        intros resp' err' [= <- <-]; split; congruence.
    + intros [= <-]. cbn. split; [reflexivity|]. intros resp' err' [=].
Qed.

(** X5: a call of [all] that returns gives either a response or an
    error, never both and never neither, and it ends with a fetch: no
    sleep follows the last fetch. *)
Theorem all_response_xor_error (n : nat) c f (w : W) (fin : Final)
    (resp : option Response) (err : option error) :
  all n c f w = inr fin ->
  outcome fin = Returned resp err ->
  (resp = None <-> err <> None)
  /\ exists fx p, final_effects fin = (fx ++ [Fetch p])%list.
Proof.
  unfold all.
  generalize {| retries := 0; page := 1; world := w; effects := [] |}.
  induction n as [|n IH]; intros st H Ho; [discriminate|].
  cbn [all_loop] in H.
  destruct (all_iteration c f st) as [st'|fin'] eqn:E.
  - now apply (IH st').
  - injection H as ->. destruct (all_iteration_end c f st fin E) as [Hfx Hx].
    split; [now apply Hx|]. now exists (effects st), (page st).
Qed.

(** X6: when the fetcher is rate limited [k] times for the page [p]
    and then returns the last page, the driver returns that response
    after [k] rounds of fetching [p] and sleeping for the backoff of the
    retry counts 0 to [k - 1], and one more fetch of [p]. *)
Theorem all_retries_then_returns c f (backoff : BackoffFunc) (k : nat)
    (ws : nat -> W) (p : Z) (r : Response) (w' : W) :
  backoffFunc c = Some backoff ->
  (forall i, (i < k)%nat ->
     exists resp e,
       f p (ws i) = ((resp, Some (APIError e)), ws (S i))
       /\ Code e = ErrorCodeLimitReached) ->
  f p (ws k) = ((Some r, None), w') ->
  last_page r ->
  forall fx,
    all_loop (S k) c f {| retries := 0; page := p; world := ws 0%nat;
                          effects := fx |} =
      inr {| outcome := Returned (Some r) None;
             final_world := w';
             final_effects :=
               (fx ++ retry_rounds backoff p 0 k ++ [Fetch p])%list |}.
Proof.
  intros Hb Hlim Hok Hlast.
  assert (G : forall (k : nat) (ws : nat -> W) (r0 : Z) (fx : list Effect),
             Go.wrap64 r0 = r0 ->
             (forall i, (i < k)%nat ->
                exists resp e,
                  f p (ws i) = ((resp, Some (APIError e)), ws (S i))
                  /\ Code e = ErrorCodeLimitReached) ->
             f p (ws k) = ((Some r, None), w') ->
             all_loop (S k) c f {| retries := r0; page := p;
                                   world := ws 0%nat; effects := fx |} =
               inr {| outcome := Returned (Some r) None;
                      final_world := w';
                      final_effects :=
                        (fx ++ retry_rounds backoff p r0 k ++ [Fetch p])%list |}).
  { clear k ws Hlim Hok. intros k. induction k as [|k IH]; intros ws r0 fx Hr Hl Ho.
    - apply all_loop_final.
      apply (all_iteration_last_page c f
               {| retries := r0; page := p; world := ws 0%nat; effects := fx |}
               r w' Ho Hlast).
    - destruct (Hl 0%nat ltac:(lia)) as (resp & e & Hf & Hc).
      rewrite (all_loop_next (S k) c f _ _
                 (all_iteration_limit_reached c f
                    {| retries := r0; page := p; world := ws 0%nat;
                       effects := fx |} backoff resp e (ws 1%nat) Hb Hf Hc)).
      cbn [retries page world effects].
      rewrite (IH (fun i => ws (S i)) (Go.wrap64 (r0 + 1))).
      + rewrite retry_rounds_S by exact Hr.
        now rewrite <- !app_assoc.
      + apply wrap64_id, wrap64_in_int64.
      + intros i Hi. apply (Hl (S i)). lia.
      + exact Ho. }
  intros fx. now apply G.
Qed.

(** X7: when every fetch succeeds and every response either is the
    last page or names a next page that is greater than the page fetched
    and at most [N], the driver returns a response within [N] fetches,
    without any sleep. *)
Theorem all_terminates_increasing c f (N : Z) :
  1 <= N ->
  (forall p w, exists r w',
      f p w = ((Some r, None), w')
      /\ (last_page r
          \/ exists pg, Pagination (Meta r) = Some pg /\ p < NextPage pg <= N)) ->
  forall w, exists fin r pages,
    all (Z.to_nat N) c f w = inr fin
    /\ outcome fin = Returned (Some r) None
    /\ final_effects fin = map Fetch pages
    /\ (length pages <= Z.to_nat N)%nat.
Proof.
  intros HN Hf w.
  assert (G : forall (n : nat) st,
             1 <= page st -> (N - page st < Z.of_nat n) -> (0 < n)%nat ->
             exists fin r pages,
               all_loop n c f st = inr fin
               /\ outcome fin = Returned (Some r) None
               /\ final_effects fin = (effects st ++ map Fetch pages)%list
               /\ (length pages <= n)%nat).
  { intros n. induction n as [|n IH]; intros st Hp Hm Hn; [lia|].
    destruct (Hf (page st) (world st)) as (r & w1 & Hfr & Hcase).
    destruct Hcase as [Hl | (pg & Hpg & Hnext)].
    - exists {| outcome := Returned (Some r) None; final_world := w1;
                final_effects := (effects st ++ [Fetch (page st)])%list |},
             r, [page st].
      split; [apply all_loop_final; now apply all_iteration_last_page|].
      cbn. repeat split. lia.
    - rewrite (all_loop_next n c f st _
                 (all_iteration_next_page c f st r w1 pg Hfr Hpg ltac:(lia))).
      destruct (IH {| retries := 0; page := NextPage pg; world := w1;
                      effects := (effects st ++ [Fetch (page st)])%list |})
        as (fin & r' & pages & Ha & Ho & Hfx & Hlen);
        cbn [page effects]; try lia.
      exists fin, r', (page st :: pages). split; [exact Ha|].
      split; [exact Ho|]. split.
      + cbn [effects] in Hfx. rewrite Hfx, <- app_assoc. reflexivity.
      + cbn. lia. }
  unfold all.
  destruct (G (Z.to_nat N) {| retries := 0; page := 1; world := w; effects := [] |})
    as (fin & r & pages & Ha & Ho & Hfx & Hlen); cbn [page]; try lia.
  exists fin, r, pages. auto.
Qed.

(** X8: the driver does not detect a cycle of pages: against a fetcher
    whose response for page 1 names page 1 as the next page, it is still
    running after any number of iterations, fetching page 1 each time
    without any sleep. *)
Theorem all_same_page_forever c f :
  (forall w, exists r w' pg,
      f 1 w = ((Some r, None), w')
      /\ Pagination (Meta r) = Some pg /\ NextPage pg = 1) ->
  forall n w, exists st,
    all n c f w = inl st
    /\ page st = 1 /\ retries st = 0
    /\ effects st = repeat (Fetch 1) n.
Proof.
  intros Hf n w. unfold all.
  assert (G : forall (n : nat) st,
             page st = 1 -> retries st = 0 ->
             exists st',
               all_loop n c f st = inl st'
               /\ page st' = 1 /\ retries st' = 0
               /\ effects st' = (effects st ++ repeat (Fetch 1) n)%list).
  { clear n w. intros n. induction n as [|n IH]; intros st Hp Hr.
    - exists st. cbn. rewrite app_nil_r. auto.
    - destruct (Hf (world st)) as (r & w' & pg & Hfr & Hpg & Hnext).
      rewrite <- Hp in Hfr.
      rewrite (all_loop_next n c f st _
                 (all_iteration_next_page c f st r w' pg Hfr Hpg ltac:(lia))).
      destruct (IH {| retries := 0; page := NextPage pg; world := w';
                      effects := (effects st ++ [Fetch (page st)])%list |})
        as (st' & Ha & Hp' & Hr' & He); [exact Hnext | reflexivity |].
      exists st'. repeat split; try assumption.
      rewrite He. cbn [effects]. rewrite Hp, <- app_assoc. reflexivity. }
  destruct (G n {| retries := 0; page := 1; world := w; effects := [] |})
    as (st & Ha & Hp & Hr & He); [reflexivity | reflexivity |].
  exists st. auto.
Qed.

End MoreDriverFacts.

Lemma all_response_xor_error_witness :
  (Some (page_response 0) = None <-> (None : option error) <> None)
  /\ exists fx p, [Fetch 1; Fetch 2; Fetch 3] = (fx ++ [Fetch p])%list.
Proof.
  exact (all_response_xor_error 3 (example_client no_network) three_pages 0%nat
           {| outcome := Returned (Some (page_response 0)) None;
              final_world := 3%nat;
              final_effects := [Fetch 1; Fetch 2; Fetch 3] |}
           (Some (page_response 0)) None eq_refl eq_refl).
Defined.

Lemma all_retries_then_returns_witness :
  all_loop 3 (example_client no_network) (limited_first 2)
    {| retries := 0; page := 1; world := 0%nat; effects := [] |} =
    inr {| outcome := Returned (Some (page_response 0)) None;
           final_world := 3%nat;
           final_effects :=
             [Fetch 1; Sleep 1000; Fetch 1; Sleep 1000; Fetch 1] |}.
Proof.
  refine (all_retries_then_returns (example_client no_network) (limited_first 2)
            (ConstantBackoff 1000) 2 (fun i => i) 1 (page_response 0) 3%nat
            eq_refl _ eq_refl _ []).
  - intros i Hi.
    exists None, {| Code := ErrorCodeLimitReached; Message := "limit reached" |}.
    destruct i as [|[|i]]; [split; reflexivity | split; reflexivity | lia].
  - right. eexists. split; reflexivity.
Defined.

Lemma all_terminates_increasing_witness :
  exists fin r pages,
    all (Z.to_nat 3) (example_client no_network) (pages_up_to 3) 0%nat = inr fin
    /\ outcome fin = Returned (Some r) None
    /\ final_effects fin = map Fetch pages
    /\ (length pages <= Z.to_nat 3)%nat.
Proof.
  apply (all_terminates_increasing (example_client no_network) (pages_up_to 3) 3);
    [lia|].
  intros p w. destruct (p <? 3) eqn:E.
  - exists (page_response (p + 1)), (S w).
    split; [unfold pages_up_to; now rewrite E|].
    right. eexists. split; [reflexivity|]. cbn. apply Z.ltb_lt in E. lia.
  - exists (page_response 0), (S w).
    split; [unfold pages_up_to; now rewrite E|].
    left. right. eexists. split; reflexivity.
Defined.

Lemma all_same_page_forever_witness :
  exists st : Loop (W := nat),
    all 4 (example_client no_network) same_page_again 0%nat = inl st
    /\ page st = 1 /\ retries st = 0
    /\ effects st = repeat (Fetch 1) 4.
Proof.
  apply (all_same_page_forever (example_client no_network) same_page_again).
  intros w. eexists _, _, _. split; [reflexivity|]. split; reflexivity.
Defined.

(** ** More on [Do] *)

(** X9: [Do] returns a nil response exactly when the transport fails,
    and then it returns the error of the transport; when [Do] returns no
    error the response is not nil.  When reading the body fails, [Do]
    returns that error with a response whose meta data are all zero. *)
Theorem Do_response_nil (c : Client) (r : http.Request) (v : Target) :
  (fst (Do c r v) = None <-> exists err, httpClient c r = inr err)
  /\ (forall err, httpClient c r = inr err -> Do c r v = (None, Some err))
  /\ (snd (Do c r v) = None -> fst (Do c r v) <> None)
  /\ (forall resp err,
         httpClient c r = inl resp ->
         io.failure (http.Body resp) = Some err ->
         exists response,
           Do c r v = (Some response, Some err)
           /\ Meta response = zero_Meta
           /\ http.StatusCode (Resp response) = http.StatusCode resp
           /\ http.Header_ (Resp response) = http.Header_ resp).
Proof.
  unfold Do. destruct (httpClient c r) as [resp|err] eqn:Hc.
  - assert (Hsome : exists response e,
               match io.ReadAll (http.Body resp) with
               | (_, Some err, rd) =>
                   (Some (set_Body {| Resp := resp; Meta := zero_Meta |} rd),
                    Some err)
               | (body, None, _) =>
                   match
                     readMeta
                       (set_Body {| Resp := resp; Meta := zero_Meta |}
                          (io.NewReader body)) body
                   with
                   | (response, Some err) =>
                       (Some response, Some (MetaDataError err))
                   | (response, None) =>
                       if (400 <=? http.StatusCode resp)
                          && (http.StatusCode resp <=? 599)
                       then
                         match errorFromResponse (Resp response) body with
                         | Some err => (Some response, Some err)
                         | None =>
                             (Some response,
                              Some (StatusCodeError (http.StatusCode resp)))
                         end
                       else
                         match v with
                         | NoTarget => (Some response, None)
                         | WriterTarget write => (Some response, write body)
                         | ValueTarget unmarshal =>
                             (Some response, unmarshal body)
                         end
                   end
               end = (Some response, e)).
    { unfold io.ReadAll. destruct (io.failure (http.Body resp)); [eauto|].
      destruct (readMeta _ _) as [response [e|]]; [eauto|].
      destruct (_ && _); [destruct (errorFromResponse _ _); eauto|].
      destruct v; eauto. }
    destruct Hsome as (response & e & Hs).
    split; [rewrite Hs; split; [discriminate | intros [err [=]]]|].
    split; [intros err [=]|].
    split; [rewrite Hs; discriminate|].
    intros resp' err [= <-] Hfail.
    unfold io.ReadAll. rewrite Hfail.
    eexists. split; [reflexivity|]. repeat split.
  - cbn [fst snd]. split; [split; eauto|].
    split; [now intros err' [= <-]|]. split; [discriminate|].
    intros resp err' [=].
Qed.

(** X10: [Do] treats exactly the status codes 400 to 599 as errors.
    When the meta data are read without error, a response of such a status
    gives an error and the decoding target is not used; a response of any
    other status, 399 or 600 say, gives the error of decoding the body
    into the target, which is no error for a nil target. *)
Theorem Do_status_bounds (c : Client) (r : http.Request) (v : Target)
    (resp : http.Response) (body : string) (response : Response) :
  httpClient c r = inl resp ->
  http.Body resp = io.NewReader body ->
  readMeta (buffered resp body) body = (response, None) ->
  let status := http.StatusCode resp in
  (400 <= status <= 599 ->
   snd (Do c r v) <> None /\ forall v', Do c r v' = Do c r v)
  /\ (status < 400 \/ 599 < status ->
      Do c r v = (Some response, decode_into v body)).
Proof.
  intros Hc Hb Hm status. subst status.
  assert (HD : forall v', Do c r v' =
            if (400 <=? http.StatusCode resp) && (http.StatusCode resp <=? 599)
            then (Some response,
                  Some match errorFromResponse resp body with
                       | Some err => err
                       | None => StatusCodeError (http.StatusCode resp)
                       end)
            else (Some response, decode_into v' body)).
  { intros v'. rewrite (Do_buffered c r v' resp body Hc Hb), Hm. reflexivity. }
  split.
  - intros Hs.
    assert (E : (400 <=? http.StatusCode resp)
                && (http.StatusCode resp <=? 599) = true).
    { apply andb_true_intro. split; apply Z.leb_le; lia. }
    split.
    + rewrite HD, E. discriminate.
    + intros v'. now rewrite !HD, E.
  - intros Hs.
    assert (E : (400 <=? http.StatusCode resp)
                && (http.StatusCode resp <=? 599) = false).
    { apply andb_false_iff. destruct Hs; [left | right]; apply Z.leb_gt; lia. }
    now rewrite HD, E.
Qed.

Lemma Do_status_bounds_witness :
  Do (example_client (serves (json_response 600 "{}"))) example_request NoTarget
  = (Some (fst (readMeta (buffered (json_response 600 "{}") "{}") "{}")), None).
Proof.
  refine (proj2 (Do_status_bounds
                   (example_client (serves (json_response 600 "{}")))
                   example_request NoTarget (json_response 600 "{}") "{}" _
                   eq_refl eq_refl eq_refl) _).
  right. cbn. lia.
Defined.

(** X11: whenever the body of the response is read, the response that
    [Do] returns carries the rate limit of the headers, whatever the
    status code and the body are, also when [Do] returns an error. *)
Theorem Do_Ratelimit (c : Client) (r : http.Request) (v : Target)
    (resp : http.Response) :
  httpClient c r = inl resp ->
  io.failure (http.Body resp) = None ->
  let h := http.Get (http.Header_ resp) in
  exists response,
    fst (Do c r v) = Some response
    /\ Ratelimit (Meta response) =
         {| Limit :=
              if String.eqb (h "RateLimit-Limit") "" then 0
              else fst (strconv.Atoi (h "RateLimit-Limit"));
            Remaining :=
              if String.eqb (h "RateLimit-Remaining") "" then 0
              else fst (strconv.Atoi (h "RateLimit-Remaining"));
            Reset :=
              if String.eqb (h "RateLimit-Reset") "" then ZeroTime
              else
                match strconv.ParseInt (h "RateLimit-Reset") with
                | (ts, None) => Unix ts
                | (_, Some _) => ZeroTime
                end |}.
Proof.
  intros Hc Hf h.
  assert (Hb : http.Body resp = io.NewReader (io.pending (http.Body resp))).
  { destruct (http.Body resp) as [p fl]. cbn in *. now subst fl. }
  pose proof (readMeta_Ratelimit
                (buffered resp (io.pending (http.Body resp)))
                (io.pending (http.Body resp))) as HR.
  cbv zeta in HR. rewrite buffered_header in HR.
  rewrite (Do_buffered c r v resp _ Hc Hb).
  destruct (readMeta (buffered resp (io.pending (http.Body resp)))
              (io.pending (http.Body resp))) as [response [e|]];
    cbn [fst] in HR.
  - exists response. split; [reflexivity | exact HR].
  - cbv zeta.
    destruct ((400 <=? http.StatusCode resp) && (http.StatusCode resp <=? 599));
      exists response; (split; [reflexivity | exact HR]).
Qed.

Lemma Do_Ratelimit_witness :
  exists response,
    fst (Do (example_client (serves (json_response 500 "<html>")))
           example_request NoTarget) = Some response
    /\ Ratelimit (Meta response) = zero_Ratelimit.
Proof.
  exact (Do_Ratelimit (example_client (serves (json_response 500 "<html>")))
           example_request NoTarget (json_response 500 "<html>")
           eq_refl eq_refl).
Defined.

(** X12: every error of the classifier is an [Error] value with a
    code or a message that is not empty, and the classifier looks at the
    content type and the body only: not at the status code, the other
    headers or the body reader. *)
Theorem errorFromResponse_Error (resp : http.Response) (body : string) :
  (forall err, errorFromResponse resp body = Some err ->
     exists e, err = APIError e /\ (Code e <> "" \/ Message e <> ""))
  /\ (forall resp',
         http.Get (http.Header_ resp') "Content-Type"
         = http.Get (http.Header_ resp) "Content-Type" ->
         errorFromResponse resp' body = errorFromResponse resp body).
Proof.
  split.
  - intros err. unfold errorFromResponse.
    destruct (negb _); [discriminate|].
    destruct (json.Unmarshal _ _ _) as [a [e|]]; [discriminate|].
    destruct (String.eqb (e_Code (e_Error a)) "") eqn:E1;
      destruct (String.eqb (e_Message (e_Error a)) "") eqn:E2;
      cbn [andb]; try discriminate;
      intros [= <-]; eexists; (split; [reflexivity|]); cbn [Code Message].
    + right. now apply String.eqb_neq.
    + left. now apply String.eqb_neq.
    + left. now apply String.eqb_neq.
  - intros resp' H. unfold errorFromResponse. now rewrite H.
Qed.

(** ** More on requests and clients *)

Lemma TrimRight_fixed (s : string) :
  last_byte s <> Some "/"%char -> strings.TrimRight s "/" = s.
Proof.
  induction s as [|c r IH]; [reflexivity|].
  cbn [strings.TrimRight]. destruct r as [|a t].
  - cbn [strings.TrimRight last_byte strings.contains_byte]. intros H.
    destruct (Ascii.eqb "/" c) eqn:E; [|reflexivity].
    apply Ascii.eqb_eq in E. subst c. now destruct H.
  - intros H. rewrite IH by exact H. reflexivity.
Qed.

Section MoreRequestFacts.
Context {L : GoLib}.

(** X13: when [http.NewRequest] fails, [NewRequest] returns its error
    and no request.  Otherwise the request has the context and the body
    that are given, the method that is given ([GET] for the empty method),
    and exactly these headers: [User-Agent], [Authorization] with the
    token as bearer, and [Content-Type] if and only if there is a body. *)
Theorem NewRequest_headers (c : Client) (ctx : http.Context)
    (method path : string) (body : option io.Reader) :
  (forall err, http_NewRequest_error method (endpoint c ++ path) = Some err ->
     NewRequest c ctx method path body = (None, Some err))
  /\ (http_NewRequest_error method (endpoint c ++ path) = None ->
      exists req,
        NewRequest c ctx method path body = (Some req, None)
        /\ http.Method req = (if String.eqb method "" then "GET" else method)
        /\ http.ReqContext req = ctx
        /\ http.ReqBody req = body
        /\ http.ReqHeader req !! "User-Agent" = Some ["hcloud-go/1.0.0"]
        /\ http.ReqHeader req !! "Authorization" = Some ["Bearer " ++ token c]
        /\ http.ReqHeader req !! "Content-Type" =
             match body with
             | Some _ => Some ["application/json"]
             | None => None
             end
        /\ forall k, k <> "User-Agent" -> k <> "Authorization" ->
                     k <> "Content-Type" -> http.ReqHeader req !! k = None).
Proof.
  unfold NewRequest, http_NewRequest. split.
  - now intros err ->.
  - intros ->. eexists. split; [reflexivity|].
    unfold WithContext, set_ReqHeader, http.Set_.
    change (http.CanonicalHeaderKey "User-Agent") with "User-Agent".
    change (http.CanonicalHeaderKey "Authorization") with "Authorization".
    change (http.CanonicalHeaderKey "Content-Type") with "Content-Type".
    destruct body as [b|]; cbn [http.Method http.ReqContext http.ReqBody
                                  http.ReqHeader];
      repeat split;
      try (intros k H1 H2 H3);
      repeat (rewrite ?lookup_insert_eq, ?lookup_empty;
              try rewrite lookup_insert_ne by congruence);
      reflexivity.
Qed.

(** X14: a client made by [NewClient] from options of the package
    uses the transport it is given, and its endpoint does not end in a
    slash; the options are applied in their order, so that the endpoint is
    that of the last [WithEndpoint], and stripping is idempotent. *)
Theorem NewClient_options (net : RoundTrip) (options : list ClientOption) :
  Forall provided_option options ->
  httpClient (NewClient net options) = net
  /\ last_byte (endpoint (NewClient net options)) <> Some "/"%char
  /\ (forall e, endpoint (NewClient net (options ++ [WithEndpoint e]))
                = strings.TrimRight e "/")
  /\ (forall e t, endpoint (NewClient net (options ++ [WithEndpoint e; WithToken t]))
                  = strings.TrimRight e "/"
                  /\ token (NewClient net (options ++ [WithEndpoint e; WithToken t]))
                     = t)
  /\ (forall e, strings.TrimRight (strings.TrimRight e "/") "/"
                = strings.TrimRight e "/").
Proof.
  intros Hopts. unfold NewClient.
  set (c0 := {| endpoint := ""; token := "";
                backoffFunc := Some (ExponentialBackoff 2 (500 * 1000000));
                httpClient := net |}).
  assert (G : forall c : Client,
             httpClient c = net -> last_byte (endpoint c) <> Some "/"%char ->
             httpClient (fold_left (fun client option => option client) options c)
             = net
             /\ last_byte (endpoint
                  (fold_left (fun client option => option client) options c))
                <> Some "/"%char).
  { induction Hopts as [|o os Ho _ IH]; intros c Hn He; [now split|].
    cbn [fold_left]. apply IH.
    - destruct Ho; exact Hn.
    - destruct Ho; cbn [endpoint WithEndpoint WithToken WithBackoffFunc];
        [apply TrimRight_last_byte | exact He | exact He]. }
  destruct (G c0 eq_refl ltac:(discriminate)) as [G1 G2].
  split; [exact G1|]. split; [exact G2|]. split; [|split].
  - intros e. now rewrite fold_left_app.
  - intros e t. now rewrite fold_left_app.
  - intros e. apply TrimRight_fixed, TrimRight_last_byte.
Qed.

End MoreRequestFacts.

Lemma NewClient_options_witness :
  httpClient (@NewClient reference_lib no_network
                [WithEndpoint "https://host/v1/"; WithToken "token"])
  = no_network.
Proof.
  refine (proj1 (@NewClient_options reference_lib no_network
                   [WithEndpoint "https://host/v1/"; WithToken "token"] _)).
  repeat constructor.
Defined.

(** ** More on backoff *)

Section MoreBackoffFacts.
Context {L : GoLib} {LS : GoLibSpec L}.

Lemma ExponentialBackoff_at_1 (b : float) (d k : Z) :
  Go.float64_trunc b = Some k ->
  Go.in_int64 k ->
  ExponentialBackoff b d 1 = Go.wrap64 (k * d).
Proof.
  intros Hk Hr. unfold ExponentialBackoff.
  change (Go.float64_of_int 1) with 1%float.
  rewrite math_Pow_one. unfold int64_of_float64. rewrite Hk.
  unfold Go.in_int64 in Hr. unfold Go.in_int64b.
  destruct Hr as [H1 H2]. apply Z.leb_le in H1, H2. now rewrite H1, H2.
Qed.

(** X15: at the retry count 1 the exponential backoff is the base with
    its fraction discarded, times the unit (with wrap-around): for every
    base from 1 up to but not including 2 the second wait equals the
    first. *)
Theorem ExponentialBackoff_second (b : float) (d k : Z) :
  Go.float64_trunc b = Some k ->
  Go.in_int64 k ->
  ExponentialBackoff b d 1 = Go.wrap64 (k * d).
Proof. apply ExponentialBackoff_at_1. Qed.

(** X16: a client made by [NewClient] from endpoint and token options
    backs off exponentially with base 2 from half a second: it waits
    500ms before the first retry and 1s before the second. *)
Theorem NewClient_default_backoff (net : RoundTrip)
    (options : list ClientOption) :
  Forall (fun o => (exists e, o = WithEndpoint e) \/ (exists t, o = WithToken t))
    options ->
  exists backoff,
    backoffFunc (NewClient net options) = Some backoff
    /\ backoff = ExponentialBackoff 2 500000000
    /\ backoff 0 = 500000000
    /\ backoff 1 = 1000000000.
Proof.
  intros Hopts. exists (ExponentialBackoff 2 500000000).
  split; [|split; [reflexivity|split]].
  - unfold NewClient. change (500 * 1000000) with 500000000.
    set (c0 := {| endpoint := ""; token := "";
                  backoffFunc := Some (ExponentialBackoff 2 500000000);
                  httpClient := net |}).
    assert (G : forall c : Client,
               backoffFunc (fold_left (fun client option => option client)
                              options c) = backoffFunc c).
    { induction Hopts as [|o os Ho _ IH]; intros c; [reflexivity|].
      cbn [fold_left]. rewrite IH.
      destruct Ho as [[e ->]|[t ->]]; reflexivity. }
    now rewrite G.
  - apply ExponentialBackoff_first.
    unfold Go.in_int64, Go.int64_min, Go.int64_max. lia.
  - rewrite (ExponentialBackoff_at_1 2 500000000 2); [reflexivity | reflexivity |].
    unfold Go.in_int64, Go.int64_min, Go.int64_max. lia.
Qed.

End MoreBackoffFacts.

Lemma ExponentialBackoff_second_witness :
  @ExponentialBackoff reference_lib 1.75 1000 1 = Go.wrap64 (1 * 1000).
Proof.
  refine (@ExponentialBackoff_second reference_lib reference_lib_spec
            1.75 1000 1 eq_refl _).
  unfold Go.in_int64, Go.int64_min, Go.int64_max. lia.
Defined.

Lemma NewClient_default_backoff_witness :
  exists backoff,
    backoffFunc (@NewClient reference_lib no_network
                   [WithToken "token"; WithEndpoint "https://host/v1/"])
    = Some backoff
    /\ backoff = @ExponentialBackoff reference_lib 2 500000000
    /\ backoff 0 = 500000000
    /\ backoff 1 = 1000000000.
Proof.
  apply (@NewClient_default_backoff reference_lib reference_lib_spec).
  constructor; [right; eexists; reflexivity|].
  constructor; [left; eexists; reflexivity|]. constructor.
Defined.

(** ** The pagination driver over [Do] *)

(** X17: when the page fetcher returns what [Do] returns and the
    server answers every request with a response of status 400 to 599
    whose body the classifier reads as an [Error] of code
    [limit_reached], the driver never returns: after any number of
    iterations it has fetched page 1 and slept each time. *)
Theorem all_Do_rate_limited {W : Type} (c : Client) (f : PageFetcher (W := W))
    (req : Z -> http.Request) (v : Target) (backoff : BackoffFunc)
    (resp : http.Response) (body : string) (e : Error) :
  backoffFunc c = Some backoff ->
  (forall p w, exists w', f p w = (Do c (req p) v, w')) ->
  (forall p, httpClient c (req p) = inl resp) ->
  http.Body resp = io.NewReader body ->
  400 <= http.StatusCode resp <= 599 ->
  snd (readMeta (buffered resp body) body) = None ->
  errorFromResponse resp body = Some (APIError e) ->
  Code e = ErrorCodeLimitReached ->
  forall n w, exists st,
    all n c f w = inl st
    /\ page st = 1
    /\ effects st = retry_rounds backoff 1 0 n.
Proof.
  intros Hb Hf Hnet Hbody Hs Hm He Hc n w.
  assert (HD : forall p, exists response,
             Do c (req p) v = (Some response, Some (APIError e))).
  { intros p. rewrite (Do_buffered c (req p) v resp body (Hnet p) Hbody).
    destruct (readMeta (buffered resp body) body) as [response me].
    cbn [snd] in Hm. subst me. cbv zeta.
    assert (E : (400 <=? http.StatusCode resp)
                && (http.StatusCode resp <=? 599) = true).
    { apply andb_true_intro. split; apply Z.leb_le; lia. }
    rewrite E, He. now exists response. }
  destruct (all_loop_always_limited c f backoff Hb) with
    (n := n) (st := {| retries := 0; page := 1; world := w; effects := [] |})
    as (st & Ha & Hp & _ & Hfx); [|reflexivity|].
  - intros p w0. destruct (Hf p w0) as [w' Hw]. destruct (HD p) as [response HDp].
    exists (Some response), e, w'. split; [|exact Hc]. now rewrite Hw, HDp.
  - exists st. auto.
Qed.

Lemma all_Do_rate_limited_witness :
  let body := quoted "{'error':{'code':'limit_reached','message':'slow down'}}" in
  let c := example_client (serves (json_response 429 body)) in
  exists st : Loop (W := unit),
    all 2 c (fun _ w => (Do c example_request NoTarget, w)) tt = inl st
    /\ page st = 1
    /\ effects st = retry_rounds (ConstantBackoff 1000) 1 0 2.
Proof.
  intros body c.
  refine (all_Do_rate_limited c (fun _ w => (Do c example_request NoTarget, w))
            (fun _ => example_request) NoTarget (ConstantBackoff 1000)
            (json_response 429 body) body
            {| Code := ErrorCodeLimitReached; Message := "slow down" |}
            eq_refl _ (fun _ => eq_refl) eq_refl _ _ _ eq_refl 2%nat tt).
  - intros p w. now exists w.
  - cbn. lia.
  - vm_compute. reflexivity.
  - vm_compute. reflexivity.
Defined.

(** ** More on the pagination block *)

Lemma ParseInt_Itoa (n : Z) :
  Go.in_int64 n -> strconv.ParseInt (strconv.Itoa n) = (n, None).
Proof. exact (Atoi_Itoa n). Qed.

Lemma store_int_Itoa (n old : Z) :
  Go.in_int64 n ->
  json.store_int (json.Number (strconv.Itoa n)) old = json.Cont n None.
Proof. intros H. unfold json.store_int. now rewrite ParseInt_Itoa. Qed.

(** X18: [UnmarshalJSON] reads the pagination object of the API: from
    an object whose members [page], [per_page], [previous_page],
    [next_page], [last_page] and [total_entries] are the decimal numerals
    of six [int64] numbers, with a member of another name among them, it
    gives the pagination of these numbers, without error. *)
Theorem UnmarshalJSON_numerals (q p : ResponseMetaPagination)
    (extra : json.value) :
  Go.in_int64 (Page q) -> Go.in_int64 (PerPage q) ->
  Go.in_int64 (PreviousPage q) -> Go.in_int64 (NextPage q) ->
  Go.in_int64 (LastPage q) -> Go.in_int64 (TotalEntries q) ->
  UnmarshalJSON
    (json.Object
       [("page", json.Number (strconv.Itoa (Page q)));
        ("per_page", json.Number (strconv.Itoa (PerPage q)));
        ("previous_page", json.Number (strconv.Itoa (PreviousPage q)));
        ("links", extra);
        ("next_page", json.Number (strconv.Itoa (NextPage q)));
        ("last_page", json.Number (strconv.Itoa (LastPage q)));
        ("total_entries", json.Number (strconv.Itoa (TotalEntries q)))])
    p
  = (q, None).
Proof.
  destruct q as [a b c d e f]. cbn [Page PerPage PreviousPage NextPage LastPage
                                     TotalEntries].
  intros Ha Hb Hc Hd He Hf.
  unfold UnmarshalJSON, json.store_struct.
  repeat (cbn [json.store_members]; unfold pagination_field at 1;
          match goal with
          | |- context [json.find_field ?l ?k] =>
              let r := eval vm_compute in (json.find_field l k) in
              change (json.find_field l k) with r
          end;
          cbv iota;
          repeat match goal with
                 | |- context [String.eqb ?x ?y] =>
                     let r := eval vm_compute in (String.eqb x y) in
                     change (String.eqb x y) with r
                 end;
          cbv iota;
          rewrite ?store_int_Itoa by assumption;
          cbn [json.with_field json.save Page PerPage PreviousPage NextPage
                 LastPage TotalEntries zero_Pagination]).
  reflexivity.
Qed.

Lemma UnmarshalJSON_numerals_witness :
  UnmarshalJSON
    (json.Object
       [("page", json.Number "2"); ("per_page", json.Number "25");
        ("previous_page", json.Number "1"); ("links", json.Null);
        ("next_page", json.Number "3"); ("last_page", json.Number "4");
        ("total_entries", json.Number "90")])
    zero_Pagination
  = ({| Page := 2; PerPage := 25; PreviousPage := 1; NextPage := 3;
        LastPage := 4; TotalEntries := 90 |}, None).
Proof.
  refine (UnmarshalJSON_numerals
            {| Page := 2; PerPage := 25; PreviousPage := 1; NextPage := 3;
               LastPage := 4; TotalEntries := 90 |} zero_Pagination json.Null
            _ _ _ _ _ _);
    unfold Go.in_int64, Go.int64_min, Go.int64_max; cbn; lia.
Defined.

(** ** Floating IPs *)

Section FloatingIPFacts.
Context {Location Server IP : Type}.
Variable IP_String : IP -> string.

(** X19: [Validate] accepts the options exactly when the type is
    [ipv4] or [ipv6] and a home location or a server is given; the type is
    checked first, so a wrong type is what is reported when both are
    wrong. *)
Theorem Validate_accepts (o : FloatingIPCreateOpts (Location := Location)
                                (Server := Server)) :
  (Validate o = None <->
   (create_Type o = FloatingIPTypeIPv4 \/ create_Type o = FloatingIPTypeIPv6)
   /\ (create_HomeLocation o <> None \/ create_Server o <> None))
  /\ (create_Type o <> FloatingIPTypeIPv4 ->
      create_Type o <> FloatingIPTypeIPv6 ->
      Validate o = Some (OtherError "missing or invalid type"))
  /\ ((create_Type o = FloatingIPTypeIPv4 \/ create_Type o = FloatingIPTypeIPv6) ->
      create_HomeLocation o = None -> create_Server o = None ->
      Validate o
      = Some (OtherError "one of home location or server is required")).
Proof.
  unfold Validate.
  destruct (String.eqb (create_Type o) FloatingIPTypeIPv4) eqn:E4;
    destruct (String.eqb (create_Type o) FloatingIPTypeIPv6) eqn:E6;
    cbn [orb];
    rewrite ?String.eqb_eq in *; rewrite ?String.eqb_neq in *;
    destruct (create_HomeLocation o), (create_Server o);
    (split; [split|split]); intros; try reflexivity; try discriminate;
    intuition congruence.
Qed.

(** X20: [GetDNSPtrForIP] and [DNSPtrForIP] give the same pointer;
    [GetDNSPtrForIP] fails exactly when the map has no entry for the text
    of the address, where [DNSPtrForIP] gives the empty string; and an
    entry that is set for an address is found for every address of the
    same text. *)
Theorem GetDNSPtrForIP_DNSPtrForIP (DNSPtr : gmap string string) (ip : IP) :
  fst (GetDNSPtrForIP IP_String DNSPtr ip) = DNSPtrForIP IP_String DNSPtr ip
  /\ (snd (GetDNSPtrForIP IP_String DNSPtr ip) <> None
      <-> DNSPtr !! IP_String ip = None)
  /\ (DNSPtr !! IP_String ip = None ->
      GetDNSPtrForIP IP_String DNSPtr ip
      = (EmptyString, Some {| DNSNotFoundError_IP := ip |}))
  /\ (forall dns ip',
         IP_String ip' = IP_String ip ->
         GetDNSPtrForIP IP_String (<[IP_String ip := dns]> DNSPtr) ip'
         = (dns, None))
  /\ (forall dns ip',
         IP_String ip' <> IP_String ip ->
         GetDNSPtrForIP IP_String (<[IP_String ip := dns]> DNSPtr) ip'
         = GetDNSPtrForIP IP_String DNSPtr ip').
Proof.
  unfold GetDNSPtrForIP, DNSPtrForIP.
  split; [now destruct (DNSPtr !! IP_String ip)|].
  split; [destruct (DNSPtr !! IP_String ip); cbn; split; congruence|].
  split; [now intros ->|]. split.
  - intros dns ip' ->. now rewrite lookup_insert_eq.
  - intros dns ip' H. rewrite lookup_insert_ne by congruence. reflexivity.
Qed.

End FloatingIPFacts.

(** ** The text of an error *)

Lemma string_length_app (s t : string) :
  String.length (s ++ t) = (String.length s + String.length t)%nat.
Proof.
  induction s as [|c s IH]; [reflexivity|].
  change (String c s ++ t) with (String c (s ++ t)).
  cbn [String.length]. now rewrite IH.
Qed.

Lemma string_app_inv_tail (s1 s2 t : string) :
  s1 ++ t = s2 ++ t -> s1 = s2.
Proof.
  revert s2. induction s1 as [|c s1 IH]; intros s2 H.
  - destruct s2 as [|d s2]; [reflexivity|].
    apply (f_equal String.length) in H. rewrite !string_length_app in H.
    cbn [String.length] in H. lia.
  - destruct s2 as [|d s2].
    + apply (f_equal String.length) in H. rewrite !string_length_app in H.
      cbn [String.length] in H. lia.
    + change (String c (s1 ++ t) = String d (s2 ++ t)) in H.
      injection H as -> H. f_equal. now apply IH.
Qed.

(** X21: the text of an [Error] is its message followed by its code in
    parentheses.  Two errors of the same code and the same text are equal,
    but the text alone does not determine the error. *)
Theorem Error_Error_text :
  (forall e1 e2 : Error,
      Code e1 = Code e2 -> Error_Error e1 = Error_Error e2 -> e1 = e2)
  /\ Error_Error {| Code := "b) (c"; Message := "a" |}
     = Error_Error {| Code := "c"; Message := "a (b)" |}.
Proof.
  split; [|reflexivity].
  intros [c1 m1] [c2 m2]. unfold Error_Error. cbn [Code Message].
  intros <- H. f_equal. now apply string_app_inv_tail in H.
Qed.

(** ** Panics of the pagination driver *)

(** X22: the driver panics, after the fetch and without any sleep,
    when the fetcher returns neither a response nor an error (the nil
    response is dereferenced), and when the fetcher fails with
    [limit_reached] while the backoff function of the client is nil. *)
Theorem all_panics {W : Type} (c : Client) (f : PageFetcher (W := W))
    (n : nat) (w w' : W) :
  (f 1 w = ((None, None), w') ->
   all (S n) c f w =
     inr {| outcome := Panicked; final_world := w';
            final_effects := [Fetch 1] |})
  /\ (forall resp e,
         f 1 w = ((resp, Some (APIError e)), w') ->
         Code e = ErrorCodeLimitReached ->
         all (S n) (WithBackoffFunc None c) f w =
           inr {| outcome := Panicked; final_world := w';
                  final_effects := [Fetch 1] |}).
Proof.
  split.
  - intros Hf. unfold all. apply all_loop_final.
    unfold all_iteration. cbn [page world effects]. now rewrite Hf.
  - intros resp e Hf Hc. unfold all. apply all_loop_final.
    unfold all_iteration. cbn [page world effects]. rewrite Hf.
    cbn [as_Error]. now rewrite Hc.
Qed.
